(** * fin-trackr: the calculation core of the portfolio tracker

    A shallow embedding of [utils.py] (the portfolio aggregator
    [process_portfolio_data] and the break-even solver
    [calculate_shares_to_buy]) and of the routes of [app.py] that read or
    write the tables, followed by the properties of the specification and
    further properties the code shows.

    Numbers.  Python [int] is [Z].  Python [float] is an IEEE 754 binary64
    number: the type [spec_float] of the standard library with precision 53
    and maximal exponent 1024, its operations rounding to nearest, ties to
    even, with signed zeros, infinities and NaN.  What Python adds is kept:
    an [int] too large for a float raises [OverflowError] when it meets a
    float, a true division by zero raises [ZeroDivisionError],
    [try]/[except] catches them, and [round(x, 2)] gives the float nearest
    to the decimal nearest to [x]. *)

From Stdlib Require Import ZArith QArith Qabs Qround Qpower Lqa Lia List String Bool.
From Stdlib Require Import Permutation Sorted.
From Stdlib Require Import Floats.SpecFloat.
Import ListNotations.
Open Scope Q_scope.

(* ------------------------------------------------------------------ *)
(** ** Python values, exceptions and arithmetic *)

Module Py.

(** The exceptions the modelled code can meet. *)
Inductive exn : Type :=
| ZeroDivisionError
| OverflowError
| UnboundLocalError
| ValueError
| KeyError
| IntegrityError
| NotFound.

(** Outcome of evaluating a piece of Python code: it yields a value or it
    raises. *)
Inductive result (A : Type) : Type :=
| Ok (a : A)
| Raise (e : exn).
Arguments Ok {A} a.
Arguments Raise {A} e.

Definition bind {A B : Type} (m : result A) (k : A -> result B) : result B :=
  match m with
  | Ok a => k a
  | Raise e => Raise e
  end.

(** [try: body except Exception as e: handler e] *)
Definition try_except {A : Type} (body : result A) (handler : exn -> result A)
  : result A :=
  match body with
  | Ok a => Ok a
  | Raise e => handler e
  end.

(** *** Floats *)

Definition prec : Z := 53.
Definition emax : Z := 1024.

Definition float : Type := spec_float.

(** The floats a Python program can hold. *)
Definition valid (x : float) : Prop := valid_binary prec emax x = true.

Definition is_nan (x : float) : bool :=
  match x with S754_nan => true | _ => false end.

Definition is_zero (x : float) : bool :=
  match x with S754_zero _ => true | _ => false end.

Definition is_finite (x : float) : bool :=
  match x with S754_zero _ | S754_finite _ _ _ => true | _ => false end.

Definition zero : float := S754_zero false.

Definition fadd (x y : float) : float := SFadd prec emax x y.
Definition fsub (x y : float) : float := SFsub prec emax x y.
Definition fmul (x y : float) : float := SFmul prec emax x y.
Definition fdiv (x y : float) : float := SFdiv prec emax x y.

(** [a < b], [a <= b] and [a >= b] on floats: false when an operand is
    NaN. *)
Definition lt (a b : float) : bool := SFltb a b.
Definition le (a b : float) : bool := SFleb a b.
Definition ge (a b : float) : bool := SFleb b a.

(** The rational a finite float stands for. *)
Definition exact (x : float) : option Q :=
  match x with
  | S754_zero _ => Some 0
  | S754_finite s m e => Some (inject_Z (cond_Zopp s (Zpos m)) * (2 ^ e))
  | _ => None
  end.

(** The float nearest to [n / d] (ties to even). *)
Definition nearest (n : Z) (d : positive) : float :=
  match n with
  | Z0 => zero
  | Zpos p => fdiv (S754_finite false p 0) (S754_finite false d 0)
  | Zneg p => fdiv (S754_finite true p 0) (S754_finite false d 0)
  end.

(** The float nearest to the integer [n] (ties to even); an infinity when
    [n] is beyond the range of the floats. *)
Definition of_int (n : Z) : float := binary_normalize prec emax n 0 false.

(** [float(n)], as done when an [int] meets a float in [+ - * /]. *)
Definition float_of_int (n : Z) : result float :=
  match of_int n with
  | S754_infinity _ => Raise OverflowError
  | x => Ok x
  end.

(** [a / b] on floats: a zero divisor raises. *)
Definition truediv (a b : float) : result float :=
  if is_zero b then Raise ZeroDivisionError else Ok (fdiv a b).

(** [n * x], [x * n] and [x / n] for an int [n] and a float [x]. *)
Definition int_mul_float (n : Z) (x : float) : result float :=
  bind (float_of_int n) (fun nf => Ok (fmul nf x)).

Definition float_mul_int (x : float) (n : Z) : result float :=
  bind (float_of_int n) (fun nf => Ok (fmul x nf)).

Definition float_div_int (x : float) (n : Z) : result float :=
  bind (float_of_int n) (fun nf => truediv x nf).

(** Nearest integer to [m * 2^e * scale], ties to the even one. *)
Definition round_scaled (m : positive) (e : Z) (scale : Z) : Z :=
  match e with
  | Zneg p =>
      let d := (2 ^ Zpos p)%Z in
      let n := (Zpos m * scale)%Z in
      let q := (n / d)%Z in
      let r := (n mod d)%Z in
      match (2 * r ?= d)%Z with
      | Lt => q
      | Gt => (q + 1)%Z
      | Eq => if Z.even q then q else (q + 1)%Z
      end
  | _ => (Zpos m * scale * 2 ^ e)%Z
  end.

(** [round(x, ndigits)] for a float [x] and [ndigits >= 0]: the float
    nearest to the decimal with [ndigits] places nearest to [x]; zeros,
    infinities and NaN round to themselves. *)
Definition round (x : float) (ndigits : nat) : float :=
  match x with
  | S754_finite s m e =>
      let scale := Z.to_pos (10 ^ Z.of_nat ndigits) in
      match round_scaled m e (Zpos scale) with
      | Zpos n => fdiv (S754_finite s n 0) (S754_finite false scale 0)
      | _ => S754_zero s
      end
  | _ => x
  end.

(** [math.ceil(x)] *)
Definition ceil (x : float) : result Z :=
  match x with
  | S754_zero _ => Ok 0%Z
  | S754_finite s m e =>
      Ok (match e with
          | Zneg p => (- ((- cond_Zopp s (Zpos m)) / 2 ^ Zpos p))%Z
          | _ => (cond_Zopp s (Zpos m) * 2 ^ e)%Z
          end)
  | S754_infinity _ => Raise OverflowError
  | S754_nan => Raise ValueError
  end.

(** *** Numbers: an [int] or a [float] *)

Inductive num : Type :=
| Int (n : Z)
| Float (x : float).

Definition add (a b : num) : result num :=
  match a, b with
  | Int m, Int n => Ok (Int (m + n))
  | Int m, Float y => bind (float_of_int m) (fun mf => Ok (Float (fadd mf y)))
  | Float x, Int n => bind (float_of_int n) (fun nf => Ok (Float (fadd x nf)))
  | Float x, Float y => Ok (Float (fadd x y))
  end.

Definition sub (a b : num) : result num :=
  match a, b with
  | Int m, Int n => Ok (Int (m - n))
  | Int m, Float y => bind (float_of_int m) (fun mf => Ok (Float (fsub mf y)))
  | Float x, Int n => bind (float_of_int n) (fun nf => Ok (Float (fsub x nf)))
  | Float x, Float y => Ok (Float (fsub x y))
  end.

(** [round(a, ndigits)]: an [int] is returned as it is. *)
Definition round_num (a : num) (ndigits : nat) : num :=
  match a with
  | Int n => Int n
  | Float x => Float (round x ndigits)
  end.

End Py.

Notation "x <- m ;; k" := (Py.bind m (fun x => k))
  (at level 61, m at next level, right associativity).

(* ------------------------------------------------------------------ *)
(** ** app.py: the [Stock] model *)

Module Stock.
Record t : Type := mk {
  id : Z;
  stock_name : string;
  quantity : Z;
  buy_price : Py.float;
  current_price : Py.float;
  user_id : Z
}.
End Stock.

(* ------------------------------------------------------------------ *)
(** ** utils.py *)

(** The dictionary built for each stock (keys as in the source). *)
Module StockData.
Record t : Type := mk {
  id : Z;
  stock_name : string;
  quantity : Z;
  buy_price : Py.float;
  current_price : Py.float;
  profit_loss : Py.float
}.
End StockData.

(** The summary dictionary. *)
Module Summary.
Record t : Type := mk {
  total_investment : Py.num;
  total_current_value : Py.num;
  total_profit_loss : Py.num
}.
End Summary.

Module utils.

(** State of the [for] loop of [process_portfolio_data]: the list built so
    far and the two running totals. *)
Record loop_state : Type := mk_loop {
  portfolio : list StockData.t;
  total_investment : Py.num;
  total_current_value : Py.num
}.

Definition loop_init : loop_state :=
  {| portfolio := [];
     total_investment := Py.Int 0;
     total_current_value := Py.Int 0 |}.

(** Steps 1 and 2 of the loop body: the dictionary for one stock. *)
Definition stock_data_of (stock : Stock.t) : Py.result StockData.t :=
  profit_loss <-
    Py.float_mul_int
      (Py.fsub (Stock.current_price stock) (Stock.buy_price stock))
      (Stock.quantity stock) ;;
  Py.Ok {| StockData.id := Stock.id stock;
           StockData.stock_name := Stock.stock_name stock;
           StockData.quantity := Stock.quantity stock;
           StockData.buy_price := Py.round (Stock.buy_price stock) 2;
           StockData.current_price := Py.round (Stock.current_price stock) 2;
           StockData.profit_loss := Py.round profit_loss 2 |}.

(** One iteration of the loop body. *)
Definition loop_body (st : loop_state) (stock : Stock.t)
  : Py.result loop_state :=
  stock_data <- stock_data_of stock ;;
  invested <-
    Py.int_mul_float (Stock.quantity stock) (Stock.buy_price stock) ;;
  total_investment' <- Py.add (total_investment st) (Py.Float invested) ;;
  valued <-
    Py.int_mul_float (Stock.quantity stock) (Stock.current_price stock) ;;
  total_current_value' <-
    Py.add (total_current_value st) (Py.Float valued) ;;
  Py.Ok {| portfolio := portfolio st ++ [stock_data];
           total_investment := total_investment';
           total_current_value := total_current_value' |}.

(** [for stock in all_stocks: ...] *)
Fixpoint for_each (all_stocks : list Stock.t) (st : loop_state)
  : Py.result loop_state :=
  match all_stocks with
  | [] => Py.Ok st
  | stock :: rest => st' <- loop_body st stock ;; for_each rest st'
  end.

Definition process_portfolio_data (all_stocks : list Stock.t)
  : Py.result (list StockData.t * Summary.t) :=
  st <- for_each all_stocks loop_init ;;
  total_profit_loss <- Py.sub (total_current_value st) (total_investment st) ;;
  let summary :=
    {| Summary.total_investment := Py.round_num (total_investment st) 2;
       Summary.total_current_value :=
         Py.round_num (total_current_value st) 2;
       Summary.total_profit_loss := Py.round_num total_profit_loss 2 |} in
  Py.Ok (portfolio st, summary).

(** The body of the [try] block of [calculate_shares_to_buy]. *)
Definition formula (q1 : Z) (p1 p2 p_target : Py.float)
  : Py.result (option Py.float) :=
  numerator <- Py.int_mul_float q1 (Py.fsub p1 p_target) ;;
  let denominator := Py.fsub p_target p2 in
  q2 <- Py.truediv numerator denominator ;;
  Py.Ok (Some q2).

(** [calculate_shares_to_buy]: [None] is Python's [None]. *)
Definition calculate_shares_to_buy (q1 : Z) (p1 p2 p_target : Py.float)
  : Py.result (option Py.float) :=
  if Py.le p_target p2 then Py.Ok None
  else if Py.ge p_target p1 then Py.Ok None
  else Py.try_except (formula q1 p1 p2 p_target)
                     (fun e => (* print(...) *) Py.Ok None).

End utils.

(* ------------------------------------------------------------------ *)
(** ** [calculate_shares_to_buy], statement by statement

    The same function as a transition system over its program points, so
    that "execution reaches the division" is a statement about reachable
    states.  Each program point is named after its source line. *)

Module break_even_machine.

Inductive pc : Type :=
| L62_if_target_le_p2      (* if p_target <= p2:            *)
| L65_return_None          (*     return None               *)
| L67_if_target_ge_p1      (* if p_target >= p1:            *)
| L70_return_None          (*     return None               *)
| L74_numerator            (* numerator = q1 * (p1 - p_target) *)
| L75_denominator          (* denominator = p_target - p2   *)
| L77_division             (* q2 = numerator / denominator  *)
| L78_return_q2            (* return q2                     *)
| L81_print                (* print(f"Error in calculation: {e}") *)
| L82_return_None          (* return None                   *)
| Returned (v : option Py.float). (* the call is over       *)

(** What [print] wrote. *)
Inductive printed : Type :=
| Error_in_calculation (e : Py.exn).

(** Arguments, locals (unbound until assigned), the caught exception and
    the standard output. *)
Record state : Type := mk {
  at_pc : pc;
  q1 : Z;
  p1 : Py.float;
  p2 : Py.float;
  p_target : Py.float;
  numerator : option Py.float;
  denominator : option Py.float;
  q2 : option Py.float;
  e : option Py.exn;
  stdout : list printed
}.

Definition init (q1 : Z) (p1 p2 p_target : Py.float) : state :=
  {| at_pc := L62_if_target_le_p2;
     q1 := q1; p1 := p1; p2 := p2; p_target := p_target;
     numerator := None; denominator := None; q2 := None;
     e := None; stdout := [] |}.

Definition goto (l : pc) (s : state) : state :=
  {| at_pc := l;
     q1 := q1 s; p1 := p1 s; p2 := p2 s; p_target := p_target s;
     numerator := numerator s; denominator := denominator s; q2 := q2 s;
     e := e s; stdout := stdout s |}.

Definition set_numerator (v : Py.float) (s : state) : state :=
  {| at_pc := at_pc s;
     q1 := q1 s; p1 := p1 s; p2 := p2 s; p_target := p_target s;
     numerator := Some v; denominator := denominator s; q2 := q2 s;
     e := e s; stdout := stdout s |}.

Definition set_denominator (v : Py.float) (s : state) : state :=
  {| at_pc := at_pc s;
     q1 := q1 s; p1 := p1 s; p2 := p2 s; p_target := p_target s;
     numerator := numerator s; denominator := Some v; q2 := q2 s;
     e := e s; stdout := stdout s |}.

Definition set_q2 (v : Py.float) (s : state) : state :=
  {| at_pc := at_pc s;
     q1 := q1 s; p1 := p1 s; p2 := p2 s; p_target := p_target s;
     numerator := numerator s; denominator := denominator s; q2 := Some v;
     e := e s; stdout := stdout s |}.

Definition catch (x : Py.exn) (s : state) : state :=
  {| at_pc := L81_print;
     q1 := q1 s; p1 := p1 s; p2 := p2 s; p_target := p_target s;
     numerator := numerator s; denominator := denominator s; q2 := q2 s;
     e := Some x; stdout := stdout s |}.

Definition print (m : printed) (s : state) : state :=
  {| at_pc := at_pc s;
     q1 := q1 s; p1 := p1 s; p2 := p2 s; p_target := p_target s;
     numerator := numerator s; denominator := denominator s; q2 := q2 s;
     e := e s; stdout := stdout s ++ [m] |}.

(** One statement.  [None] when the call has returned. *)
Definition step (s : state) : option state :=
  match at_pc s with
  | L62_if_target_le_p2 =>
      if Py.le (p_target s) (p2 s)
      then Some (goto L65_return_None s)
      else Some (goto L67_if_target_ge_p1 s)
  | L65_return_None => Some (goto (Returned None) s)
  | L67_if_target_ge_p1 =>
      if Py.ge (p_target s) (p1 s)
      then Some (goto L70_return_None s)
      else Some (goto L74_numerator s)
  | L70_return_None => Some (goto (Returned None) s)
  | L74_numerator =>
      match Py.int_mul_float (q1 s) (Py.fsub (p1 s) (p_target s)) with
      | Py.Ok v => Some (goto L75_denominator (set_numerator v s))
      | Py.Raise x => Some (catch x s)
      end
  | L75_denominator =>
      Some (goto L77_division
              (set_denominator (Py.fsub (p_target s) (p2 s)) s))
  | L77_division =>
      match numerator s, denominator s with
      | Some n, Some d =>
          match Py.truediv n d with
          | Py.Ok v => Some (goto L78_return_q2 (set_q2 v s))
          | Py.Raise x => Some (catch x s)
          end
      | _, _ => Some (catch Py.UnboundLocalError s)
      end
  | L78_return_q2 => Some (goto (Returned (q2 s)) s)
  | L81_print =>
      match e s with
      | Some x => Some (goto L82_return_None (print (Error_in_calculation x) s))
      | None => None
      end
  | L82_return_None => Some (goto (Returned None) s)
  | Returned _ => None
  end.

(** States an execution passes through. *)
Inductive reachable (s0 : state) : state -> Prop :=
| reach_start : reachable s0 s0
| reach_step s s' : reachable s0 s -> step s = Some s' -> reachable s0 s'.

(** Run at most [fuel] statements. *)
Fixpoint run (fuel : nat) (s : state) : state :=
  match fuel with
  | O => s
  | S fuel' =>
      match step s with
      | Some s' => run fuel' s'
      | None => s
      end
  end.

End break_even_machine.

(* ------------------------------------------------------------------ *)
(** ** app.py: the routes that read or write the tables

    The [stock] table is the list of its rows, the [user] table the list
    of its rows.  A request's form is given by what reading its fields
    yields: the values, or the exception raised for a missing field or
    for text that [int()] or [float()] cannot parse. *)

Module app.

(** The add-stock form once lines 124-127 have read it:
    [request.form['stock_name'].upper()], [int(request.form['quantity'])]
    and the two [float(request.form[...])].  A request comes with a
    [Py.result add_stock_form]: these four values, or the exception that
    reading them raised. *)
Record add_stock_form : Type := mk_form {
  form_stock_name : string;
  form_quantity : Z;
  form_buy_price : Py.float;
  form_current_price : Py.float
}.

(** The messages flashed to the user. *)
Inductive flash : Type :=
| Updated_with_new_shares (stock_name : string) (quantity : Z)
| Added_to_portfolio (stock_name : string)
| Error_processing_request.

Definition owned_by_named (user : Z) (name : string) (s : Stock.t) : bool :=
  (Stock.user_id s =? user)%Z && String.eqb (Stock.stock_name s) name.

(** [Stock.query.filter_by(user_id=..., stock_name=...).first()]: the
    first matching row, with its place in the table (the identity of the
    object the session hands out). *)
Fixpoint query_first (user : Z) (name : string) (rows : list Stock.t)
  : option (nat * Stock.t) :=
  match rows with
  | [] => None
  | s :: rows' =>
      if owned_by_named user name s then Some (O, s)
      else match query_first user name rows' with
           | Some (i, r) => Some (S i, r)
           | None => None
           end
  end.

(** Writing a modified row back. *)
Fixpoint write_row (i : nat) (s : Stock.t) (rows : list Stock.t)
  : list Stock.t :=
  match rows, i with
  | [], _ => []
  | _ :: rows', O => s :: rows'
  | r :: rows', S i' => r :: write_row i' s rows'
  end.

(** The next primary key. *)
Definition next_id (rows : list Stock.t) : Z :=
  (fold_right Z.max 0 (map Stock.id rows) + 1)%Z.

(** What the session holds when [commit] is called: a modified object or
    an added one. *)
Inductive pending : Type :=
| Modified (i : nat) (s : Stock.t)
| Added (s : Stock.t).

Definition pending_row (p : pending) : Stock.t :=
  match p with
  | Modified _ s => s
  | Added s => s
  end.

(** An INTEGER column holds 64-bit signed integers. *)
Definition int64 (n : Z) : bool :=
  ((- 2 ^ 63 <=? n) && (n <? 2 ^ 63))%Z.

(** A row the [stock] table can hold: the quantity fits the INTEGER
    column, and no price is NaN, which SQLite takes for NULL and the
    NOT NULL columns refuse. *)
Definition storable (s : Stock.t) : bool :=
  int64 (Stock.quantity s)
  && negb (Py.is_nan (Stock.buy_price s))
  && negb (Py.is_nan (Stock.current_price s)).

(** [db.session.commit()] with one pending object, on a table of storable
    rows: the row is written, or the statement fails and nothing is. *)
Definition db_session_commit (p : pending) (rows : list Stock.t)
  : Py.result (list Stock.t) :=
  let s := pending_row p in
  if negb (int64 (Stock.quantity s)) then Py.Raise Py.OverflowError
  else if Py.is_nan (Stock.buy_price s) || Py.is_nan (Stock.current_price s)
       then Py.Raise Py.IntegrityError
  else match p with
       | Modified i s => Py.Ok (write_row i s rows)
       | Added s => Py.Ok (rows ++ [s])
       end.

(** The [try] block of the POST branch up to its [flash] (lines 124-159):
    what is pending in the session and the message flashed. *)
Definition portfolio_post_body (current_user : Z)
           (request_form : Py.result add_stock_form) (rows : list Stock.t)
  : Py.result (pending * flash) :=
  form <- request_form ;;
  match query_first current_user (form_stock_name form) rows with
  | Some (i, existing_stock) =>
      old_total_cost <-
        Py.int_mul_float (Stock.quantity existing_stock)
                         (Stock.buy_price existing_stock) ;;
      new_purchase_cost <-
        Py.int_mul_float (form_quantity form) (form_buy_price form) ;;
      let total_quantity :=
        (Stock.quantity existing_stock + form_quantity form)%Z in
      new_average_price <-
        Py.float_div_int (Py.fadd old_total_cost new_purchase_cost)
                         total_quantity ;;
      let updated :=
        {| Stock.id := Stock.id existing_stock;
           Stock.stock_name := Stock.stock_name existing_stock;
           Stock.quantity := total_quantity;
           Stock.buy_price := new_average_price;
           Stock.current_price := form_current_price form;
           Stock.user_id := Stock.user_id existing_stock |} in
      Py.Ok (Modified i updated,
             Updated_with_new_shares (form_stock_name form)
                                     (form_quantity form))
  | None =>
      let new_stock :=
        {| Stock.id := next_id rows;
           Stock.stock_name := form_stock_name form;
           Stock.quantity := form_quantity form;
           Stock.buy_price := form_buy_price form;
           Stock.current_price := form_current_price form;
           Stock.user_id := current_user |} in
      Py.Ok (Added new_stock, Added_to_portfolio (form_stock_name form))
  end.

(** The POST branch (lines 121-166): the table after the request and the
    messages flashed, in order.  An exception before the [flash] leaves
    the error message alone; a failing [commit] comes after the success
    message was flashed, and leaves the table as it was. *)
Definition portfolio_post (current_user : Z)
           (request_form : Py.result add_stock_form) (rows : list Stock.t)
  : list Stock.t * list flash :=
  match portfolio_post_body current_user request_form rows with
  | Py.Raise _ => (rows, [Error_processing_request])
  | Py.Ok (p, message) =>
      match db_session_commit p rows with
      | Py.Ok rows' => (rows', [message])
      | Py.Raise _ => (rows, [message; Error_processing_request])
      end
  end.

(** *** The other routes *)

Module User.
Record t : Type := mk {
  id : Z;
  username : string;
  password : string   (* the bcrypt hash *)
}.
End User.

(** [filter_by(user_id=current_user.id)] *)
Definition owned_by (user : Z) (s : Stock.t) : bool :=
  (Stock.user_id s =? user)%Z.

(** [order_by(Stock.stock_name)]: insertion into a list ordered by name
    (byte order, as SQLite compares text); rows of the same name keep
    their table order. *)
Fixpoint insert_by_name (s : Stock.t) (l : list Stock.t) : list Stock.t :=
  match l with
  | [] => [s]
  | r :: l' =>
      if String.leb (Stock.stock_name s) (Stock.stock_name r)
      then s :: l
      else r :: insert_by_name s l'
  end.

Definition order_by_stock_name (l : list Stock.t) : list Stock.t :=
  fold_right insert_by_name [] l.

(** The GET branch of [portfolio] (lines 168-176): what the template is
    given, or the exception that ends the request. *)
Definition portfolio_get (current_user : Z) (rows : list Stock.t)
  : Py.result (list StockData.t * Summary.t) :=
  let all_stocks :=
    order_by_stock_name (filter (owned_by current_user) rows) in
  utils.process_portfolio_data all_stocks.

(** [Stock.current_price < Stock.buy_price] *)
Definition at_a_loss (s : Stock.t) : bool :=
  Py.lt (Stock.current_price s) (Stock.buy_price s).

(** [manage_loss] (lines 178-187): the stocks handed to the template. *)
Definition manage_loss (current_user : Z) (rows : list Stock.t)
  : list Stock.t :=
  filter (fun s => owned_by current_user s && at_a_loss s) rows.

(** [Stock.query.filter_by(id=..., user_id=current_user.id).first()] *)
Definition first_by_id (stock_id current_user : Z) (rows : list Stock.t)
  : option Stock.t :=
  find (fun s => (Stock.id s =? stock_id)%Z && owned_by current_user s) rows.

(** [first_or_404()]: raises when there is no such row. *)
Definition first_or_404 (stock_id current_user : Z) (rows : list Stock.t)
  : Py.result Stock.t :=
  match first_by_id stock_id current_user rows with
  | Some stock => Py.Ok stock
  | None => Py.Raise Py.NotFound
  end.

(** The break-even form once lines 220-221 have read it:
    [request.form['stock_id']], as the integer its text stands for in the
    query ([None] when it stands for none, and no row matches), and
    [float(request.form['p_target'])].  A request comes with a
    [Py.result break_even_form]: these two values, or the exception that
    reading them raised. *)
Record break_even_form : Type := mk_break_even_form {
  form_stock_id : option Z;
  form_p_target : Py.float
}.

(** What [calculate_break_even] answers. *)
Inductive break_even_response : Type :=
| Render_result (stock : Stock.t) (q2 : option Py.float) (p_target : Py.float)
| Redirect_manage_loss.

(** The [try] block of [calculate_break_even] (lines 220-234). *)
Definition calculate_break_even_body (current_user : Z)
           (request_form : Py.result break_even_form) (rows : list Stock.t)
  : Py.result break_even_response :=
  form <- request_form ;;
  stock <-
    match form_stock_id form with
    | Some stock_id => first_or_404 stock_id current_user rows
    | None => Py.Raise Py.NotFound
    end ;;
  q2 <-
    utils.calculate_shares_to_buy
      (Stock.quantity stock) (Stock.buy_price stock)
      (Stock.current_price stock) (form_p_target form) ;;
  Py.Ok (Render_result stock q2 (form_p_target form)).

(** [calculate_break_even] (lines 216-238): [except Exception] catches
    what the block raises, the 404 of [first_or_404] included. *)
Definition calculate_break_even (current_user : Z)
           (request_form : Py.result break_even_form) (rows : list Stock.t)
  : break_even_response :=
  match calculate_break_even_body current_user request_form rows with
  | Py.Ok response => response
  | Py.Raise _ => Redirect_manage_loss
  end.

(** What [delete_stock] answers. *)
Inductive delete_response : Type :=
| Redirect_portfolio
| Not_found_404.

(** [db.session.delete(obj)] and commit: the row with the object's primary
    key goes. *)
Definition session_delete (obj : Stock.t) (rows : list Stock.t)
  : list Stock.t :=
  filter (fun s => negb (Stock.id s =? Stock.id obj)%Z) rows.

(** [delete_stock] (lines 252-264): here [first_or_404] is outside the
    [try] block. *)
Definition delete_stock (current_user id : Z) (rows : list Stock.t)
  : list Stock.t * delete_response :=
  match first_by_id id current_user rows with
  | None => (rows, Not_found_404)
  | Some stock_to_delete =>
      (session_delete stock_to_delete rows, Redirect_portfolio)
  end.

(** [delete_account] (lines 196-212) on both tables. *)
Definition delete_account (current_user : Z)
           (users : list User.t) (rows : list Stock.t)
  : list User.t * list Stock.t :=
  let rows' := filter (fun s => negb (owned_by current_user s)) rows in
  let users' := filter (fun u => negb (User.id u =? current_user)%Z) users in
  (users', rows').

(** What [register] answers to a POST. *)
Inductive register_response : Type :=
| Username_taken
| Account_created.

Definition next_user_id (users : list User.t) : Z :=
  (fold_right Z.max 0 (map User.id users) + 1)%Z.

(** The POST branch of [register] (lines 66-90); [hashed_password] is what
    [bcrypt.generate_password_hash] returned. *)
Definition register (form_username hashed_password : string)
           (users : list User.t) : list User.t * register_response :=
  match find (fun u => String.eqb (User.username u) form_username) users with
  | Some existing_user => (users, Username_taken)
  | None =>
      let new_user :=
        {| User.id := next_user_id users;
           User.username := form_username;
           User.password := hashed_password |} in
      (users ++ [new_user], Account_created)
  end.

End app.

(* ------------------------------------------------------------------ *)
(** ** Vocabulary of the statements *)

(** The sign bit of a float; NaN has none. *)
Definition sign_of (x : Py.float) : option bool :=
  match x with
  | S754_zero s | S754_infinity s | S754_finite s _ _ => Some s
  | S754_nan => None
  end.

(** An [int] that [float()] accepts. *)
Definition converts (n : Z) : Prop :=
  exists x : Py.float, Py.float_of_int n = Py.Ok x.

(** The break-even formula evaluated on floats, each operation rounded:
    [q1 * (p1 - p_target) / (p_target - p2)] for a float [q1]. *)
Definition break_even_double (q1 p1 p2 p_target : Py.float) : Py.float :=
  Py.fdiv (Py.fmul q1 (Py.fsub p1 p_target)) (Py.fsub p_target p2).

(** [quantity * buy_price], [quantity * current_price] and
    [(current_price - buy_price) * quantity] on floats, for a quantity
    that converts. *)
Definition invested (s : Stock.t) : Py.float :=
  Py.fmul (Py.of_int (Stock.quantity s)) (Stock.buy_price s).

Definition valued (s : Stock.t) : Py.float :=
  Py.fmul (Py.of_int (Stock.quantity s)) (Stock.current_price s).

Definition position_profit (s : Stock.t) : Py.float :=
  Py.fmul (Py.fsub (Stock.current_price s) (Stock.buy_price s))
          (Py.of_int (Stock.quantity s)).

(** The float a running total that started at the int [0] holds after the
    floats of [l] were added to it in order. *)
Definition float_sum (l : list Py.float) : Py.float :=
  fold_left Py.fadd l Py.zero.

(** The pair that identifies a holding: the owner and the stock's name. *)
Definition holding_key (s : Stock.t) : Z * string :=
  (Stock.user_id s, Stock.stock_name s).

(** Names in non-decreasing byte order. *)
Definition name_le (a b : Stock.t) : Prop :=
  String.leb (Stock.stock_name a) (Stock.stock_name b) = true.

(** The claims read in exact arithmetic, on rationals. *)
Module Exact.

(** Nearest integer, ties to the even one. *)
Definition round_half_even (x : Q) : Z :=
  let f := Qfloor x in
  match Qcompare (x - inject_Z f) (1 # 2) with
  | Lt => f
  | Gt => (f + 1)%Z
  | Eq => if Z.even f then f else (f + 1)%Z
  end.

(** Rounding to two decimal places. *)
Definition round2 (x : Q) : Q :=
  inject_Z (round_half_even (x * 100)) / 100.

(** The value the break-even formula denotes. *)
Definition break_even_value (q1 : Z) (p1 p2 p_target : Q) : Q :=
  inject_Z q1 * (p1 - p_target) / (p_target - p2).

(** The average cost after buying [q2] more shares at [p2]. *)
Definition average_after (q1 : Z) (p1 q2 p2 : Q) : Q :=
  (inject_Z q1 * p1 + q2 * p2) / (inject_Z q1 + q2).

End Exact.

(** A finite float as a multiple of the smallest subnormal, [2^-1074]. *)
Definition ulps (x : Py.float) : Z :=
  match x with
  | S754_finite s m e => (cond_Zopp s (Zpos m) * 2 ^ (e + 1074))%Z
  | _ => 0%Z
  end.

(** What holds at each program point of [calculate_shares_to_buy] when it
    was called with the given arguments. *)
Definition solver_invariant (q1 : Z) (p1 p2 p_target : Py.float)
           (s : break_even_machine.state) : Prop :=
  let guards_passed :=
    Py.le p_target p2 = false /\ Py.ge p_target p1 = false in
  let quiet :=
    break_even_machine.stdout s = [] /\ break_even_machine.e s = None in
  let overflowed := Py.float_of_int q1 = Py.Raise Py.OverflowError in
  break_even_machine.q1 s = q1
  /\ break_even_machine.p1 s = p1
  /\ break_even_machine.p2 s = p2
  /\ break_even_machine.p_target s = p_target
  /\ match break_even_machine.at_pc s with
     | break_even_machine.L62_if_target_le_p2 => quiet
     | break_even_machine.L65_return_None =>
         Py.le p_target p2 = true /\ quiet
     | break_even_machine.L67_if_target_ge_p1 =>
         Py.le p_target p2 = false /\ quiet
     | break_even_machine.L70_return_None =>
         Py.le p_target p2 = false /\ Py.ge p_target p1 = true /\ quiet
     | break_even_machine.L74_numerator => guards_passed /\ quiet
     | break_even_machine.L75_denominator =>
         guards_passed /\ quiet
         /\ exists q1f,
              Py.float_of_int q1 = Py.Ok q1f
              /\ break_even_machine.numerator s
                 = Some (Py.fmul q1f (Py.fsub p1 p_target))
     | break_even_machine.L77_division =>
         guards_passed /\ quiet
         /\ exists q1f,
              Py.float_of_int q1 = Py.Ok q1f
              /\ break_even_machine.numerator s
                 = Some (Py.fmul q1f (Py.fsub p1 p_target))
              /\ break_even_machine.denominator s
                 = Some (Py.fsub p_target p2)
     | break_even_machine.L78_return_q2 =>
         guards_passed /\ quiet
         /\ exists q1f,
              Py.float_of_int q1 = Py.Ok q1f
              /\ break_even_machine.q2 s
                 = Some (break_even_double q1f p1 p2 p_target)
     | break_even_machine.L81_print =>
         guards_passed /\ overflowed
         /\ break_even_machine.stdout s = []
         /\ break_even_machine.e s = Some Py.OverflowError
     | break_even_machine.L82_return_None =>
         guards_passed /\ overflowed
         /\ break_even_machine.stdout s
            = [break_even_machine.Error_in_calculation Py.OverflowError]
         /\ break_even_machine.e s = Some Py.OverflowError
     | break_even_machine.Returned v =>
         utils.calculate_shares_to_buy q1 p1 p2 p_target = Py.Ok v
         /\ ((quiet
              /\ (Py.le p_target p2 = true \/ Py.ge p_target p1 = true
                  \/ converts q1))
             \/ (guards_passed /\ overflowed /\ v = None
                 /\ break_even_machine.stdout s
                    = [break_even_machine.Error_in_calculation
                         Py.OverflowError]
                 /\ break_even_machine.e s = Some Py.OverflowError))
     end.

(** The dictionary built for a stock whose quantity converts to a
    float. *)
Definition stock_data (stock : Stock.t) : StockData.t :=
  {| StockData.id := Stock.id stock;
     StockData.stock_name := Stock.stock_name stock;
     StockData.quantity := Stock.quantity stock;
     StockData.buy_price := Py.round (Stock.buy_price stock) 2;
     StockData.current_price := Py.round (Stock.current_price stock) 2;
     StockData.profit_loss := Py.round (position_profit stock) 2 |}.

(** A running total after a float was added to it: the int [0] it starts
    as is converted first. *)
Definition add_float (a : Py.num) (x : Py.float) : Py.num :=
  match a with
  | Py.Int n => Py.Float (Py.fadd (Py.of_int n) x)
  | Py.Float y => Py.Float (Py.fadd y x)
  end.

(** A running total whose next addition cannot raise. *)
Definition addable (a : Py.num) : Prop :=
  match a with
  | Py.Int n => converts n
  | Py.Float _ => True
  end.

(** Every quantity of the list converts to a float. *)
Definition all_convert (l : list Stock.t) : Prop :=
  Forall (fun s => converts (Stock.quantity s)) l.

(** A row whose prices are floats. *)
Definition well_formed (s : Stock.t) : Prop :=
  Py.valid (Stock.buy_price s) /\ Py.valid (Stock.current_price s).


(* ================================================================== *)
(** * Properties *)

(** ** Binary64 arithmetic

    Facts about the rounding of the standard library's [SpecFloat]
    operations at precision 53, in terms of the magnitude
    [digits m + e] of a float [m * 2^e]. *)

Section Binary64.

Local Open Scope Z_scope.

Local Abbreviation prec := Py.prec.
Local Abbreviation emax := Py.emax.

Lemma digits2_size (p : positive) : digits2_pos p = Pos.size p.
Proof. induction p; cbn; congruence. Qed.

Lemma digits2_log2 (p : positive) :
  Zpos (digits2_pos p) = Z.log2 (Zpos p) + 1.
Proof.
  rewrite digits2_size. destruct p; cbn; try reflexivity.
  - rewrite Pos.add_1_r. reflexivity.
  - rewrite Pos.add_1_r. reflexivity.
Qed.

Lemma digits2_bounds (p : positive) :
  2 ^ (Zpos (digits2_pos p) - 1) <= Zpos p < 2 ^ Zpos (digits2_pos p).
Proof.
  rewrite digits2_log2.
  pose proof (Z.log2_spec (Zpos p) eq_refl) as H.
  replace (Z.log2 (Zpos p) + 1 - 1) with (Z.log2 (Zpos p)) by lia.
  replace (Z.log2 (Zpos p) + 1) with (Z.succ (Z.log2 (Zpos p))) by lia.
  exact H.
Qed.

Lemma shr_1_div2 (mrs : shr_record) :
  0 <= shr_m mrs -> shr_m (shr_1 mrs) = Z.div2 (shr_m mrs).
Proof.
  destruct mrs as [m r s]; cbn [shr_m]. intros Hm.
  destruct m as [ | [ p | p | ] | p ]; cbn; try reflexivity; lia.
Qed.

Lemma shr_1_nonneg (mrs : shr_record) :
  0 <= shr_m mrs -> 0 <= shr_m (shr_1 mrs).
Proof.
  intros H. rewrite shr_1_div2 by exact H. apply Z.div2_nonneg. exact H.
Qed.

Lemma iter_shr_1 (n : positive) (mrs : shr_record) :
  0 <= shr_m mrs ->
  shr_m (iter_pos shr_1 n mrs) = Z.shiftr (shr_m mrs) (Zpos n)
  /\ 0 <= shr_m (iter_pos shr_1 n mrs).
Proof.
  revert mrs. induction n as [ n IH | n IH | ]; intros mrs Hm; cbn [iter_pos].
  - destruct (IH (shr_1 mrs) (shr_1_nonneg _ Hm)) as [E1 P1].
    destruct (IH _ P1) as [E2 P2].
    split; [ | exact P2 ].
    rewrite E2, E1, shr_1_div2 by exact Hm.
    rewrite Z.div2_spec, !Z.shiftr_shiftr by lia.
    f_equal. lia.
  - destruct (IH mrs Hm) as [E1 P1].
    destruct (IH _ P1) as [E2 P2].
    split; [ | exact P2 ].
    rewrite E2, E1, Z.shiftr_shiftr by lia.
    f_equal. lia.
  - split; [ | apply shr_1_nonneg; exact Hm ].
    rewrite shr_1_div2 by exact Hm. apply Z.div2_spec.
Qed.

Local Abbreviation emin := (SpecFloat.emin prec emax).
Local Abbreviation fexp := (SpecFloat.fexp prec emax).

Lemma emin_val : emin = -1074.
Proof. reflexivity. Qed.

Lemma fexp_spec (x : Z) : fexp x = Z.max (x - 53) (-1074).
Proof. reflexivity. Qed.

Lemma Zdigits2_pos_log2 (m : Z) : 0 < m -> Zdigits2 m = Z.log2 m + 1.
Proof.
  destruct m as [ | p | p ]; intros H; try lia. cbn [Zdigits2].
  apply digits2_log2.
Qed.

Lemma log2_shiftr_pos (m n : Z) :
  0 < m -> 0 <= n -> n <= Z.log2 m ->
  0 < Z.shiftr m n /\ Z.log2 (Z.shiftr m n) = Z.log2 m - n.
Proof.
  intros Hm Hn Hle.
  assert (Hpos : 0 < Z.shiftr m n).
  { rewrite Z.shiftr_div_pow2 by lia.
    apply Z.div_str_pos. split; [ apply Z.pow_pos_nonneg; lia | ].
    apply Z.le_trans with (2 ^ Z.log2 m).
    - apply Z.pow_le_mono_r; lia.
    - apply Z.log2_spec. exact Hm. }
  split; [ exact Hpos | ].
  rewrite Z.log2_shiftr by exact Hm. lia.
Qed.

(** What the first shift of a rounding does to a positive mantissa that is
    not below the smallest subnormal. *)
Lemma shr_fexp_pos (m e : Z) (l : location) :
  0 < m -> emin < Zdigits2 m + e ->
  exists mrs e',
    shr_fexp prec emax m e l = (mrs, e')
    /\ 0 < shr_m mrs
    /\ Zdigits2 (shr_m mrs) + e' = Zdigits2 m + e
    /\ e <= e'
    /\ e' = Z.max e (fexp (Zdigits2 m + e))
    /\ shr_m mrs = Z.shiftr m (e' - e).
Proof.
  intros Hm Hmag. unfold shr_fexp.
  rewrite (Zdigits2_pos_log2 m Hm) in *.
  rewrite fexp_spec. rewrite emin_val in Hmag.
  set (n := Z.max (Z.log2 m + 1 + e - 53) (-1074) - e).
  assert (Hrec : shr_m (shr_record_of_loc m l) = m)
    by (destruct l as [ | [ | | ] ]; reflexivity).
  unfold shr. destruct n as [ | p | p ] eqn:En.
  - eexists _, _. split; [ reflexivity | ]. rewrite Hrec.
    rewrite (Zdigits2_pos_log2 m Hm), Z.sub_diag, Z.shiftr_0_r.
    repeat split; lia.
  - assert (H0 : 0 <= shr_m (shr_record_of_loc m l)) by lia.
    destruct (iter_shr_1 p _ H0) as [E _]. rewrite Hrec in E.
    destruct (log2_shiftr_pos m (Zpos p) Hm) as [Hpos Hlog]; [ lia | lia | ].
    eexists _, _. split; [ reflexivity | ]. rewrite E.
    rewrite (Zdigits2_pos_log2 _ Hpos), Hlog.
    replace (e + Zpos p - e) with (Zpos p) by lia.
    repeat split; lia.
  - eexists _, _. split; [ reflexivity | ]. rewrite Hrec.
    rewrite (Zdigits2_pos_log2 m Hm), Z.sub_diag, Z.shiftr_0_r.
    repeat split; lia.
Qed.

Lemma rne_bounds (m : Z) (l : location) :
  m <= round_nearest_even m l <= m + 1.
Proof.
  unfold round_nearest_even.
  destruct l as [ | [ | | ] ]; try destruct (Z.even m); lia.
Qed.

Lemma Zdigits2_mono (a b : Z) :
  0 < a -> a <= b -> Zdigits2 a <= Zdigits2 b.
Proof.
  intros Ha Hab. rewrite !Zdigits2_pos_log2 by lia.
  pose proof (Z.log2_le_mono a b Hab). lia.
Qed.

Lemma Zdigits2_succ (a : Z) : 0 < a -> Zdigits2 (a + 1) <= Zdigits2 a + 1.
Proof.
  intros Ha. rewrite !Zdigits2_pos_log2 by lia.
  pose proof (Z.log2_succ_le a). replace (a + 1) with (Z.succ a) by lia. lia.
Qed.

(** Rounding a positive number that is not below the smallest subnormal
    gives a positive float, of the same binade or the next, or overflows. *)
Lemma binary_round_aux_pos (s : bool) (p : positive) (e : Z) (l : location) :
  emin < Zpos (digits2_pos p) + e ->
  binary_round_aux prec emax s (Zpos p) e l = S754_infinity s
  \/ exists m' e',
      binary_round_aux prec emax s (Zpos p) e l = S754_finite s m' e'
      /\ Zpos (digits2_pos p) + e <= Zpos (digits2_pos m') + e'
         <= Zpos (digits2_pos p) + e + 1
      /\ e' <= emax - prec.
Proof.
  intros Hmag. unfold binary_round_aux.
  destruct (shr_fexp_pos (Zpos p) e l eq_refl Hmag)
    as (mrs1 & e1 & E1 & Hpos1 & Hmag1 & _).
  rewrite E1.
  pose proof (rne_bounds (shr_m mrs1) (loc_of_shr_record mrs1)) as Hr.
  set (m2 := round_nearest_even (shr_m mrs1) (loc_of_shr_record mrs1)) in *.
  assert (Hm2 : 0 < m2) by lia.
  assert (Hd2 : Zdigits2 (shr_m mrs1) <= Zdigits2 m2
                <= Zdigits2 (shr_m mrs1) + 1).
  { split; [ apply Zdigits2_mono; lia | ].
    apply Z.le_trans with (Zdigits2 (shr_m mrs1 + 1)).
    - apply Zdigits2_mono; lia.
    - apply Zdigits2_succ; lia. }
  cbn [Zdigits2] in Hmag1.
  destruct (shr_fexp_pos m2 e1 loc_Exact Hm2) as (mrs2 & e2 & E2 & Hpos2 & Hmag2 & _);
    [ lia | ].
  rewrite E2.
  destruct (shr_m mrs2) as [ | m' | m' ] eqn:Em; try lia.
  cbn [Zdigits2] in Hmag2.
  destruct (Z.leb_spec e2 (emax - prec)) as [Hle | Hgt].
  - right. exists m', e2. split; [ reflexivity | ]. lia.
  - left. reflexivity.
Qed.

Lemma iter_xO (d m : positive) :
  Zpos (Pos.iter xO m d) = Zpos m * 2 ^ Zpos d.
Proof.
  induction d as [ | d IH ] using Pos.peano_ind.
  - cbn. lia.
  - rewrite Pos.iter_succ, Pos2Z.inj_xO, IH, Pos2Z.inj_succ, Z.pow_succ_r by lia.
    lia.
Qed.

Lemma shl_align_spec (m : positive) (e ez : Z) :
  ez <= e ->
  Zpos (fst (shl_align m e ez)) = Zpos m * 2 ^ (e - ez)
  /\ (ez < e -> snd (shl_align m e ez) = ez).
Proof.
  intros Hle. unfold shl_align.
  destruct (ez - e) as [ | d | d ] eqn:E; try lia; cbn [fst snd].
  - replace (e - ez) with 0 by lia. split; lia.
  - rewrite iter_xO. replace (e - ez) with (Zpos d) by lia. split; auto.
Qed.

Lemma log2_mul_pow2 (m k : Z) :
  0 < m -> 0 <= k -> Z.log2 (m * 2 ^ k) = Z.log2 m + k.
Proof. intros Hm Hk. rewrite Z.log2_mul_pow2 by lia. lia. Qed.

(** [binary_round] on a positive number that is not below the smallest
    subnormal. *)
Lemma binary_round_pos (s : bool) (p : positive) (e : Z) :
  emin < Zpos (digits2_pos p) + e ->
  binary_round prec emax s p e = S754_infinity s
  \/ exists m' e',
      binary_round prec emax s p e = S754_finite s m' e'
      /\ Zpos (digits2_pos p) + e <= Zpos (digits2_pos m') + e'
         <= Zpos (digits2_pos p) + e + 1
      /\ e' <= emax - prec.
Proof.
  intros Hmag. unfold binary_round.
  set (f := SpecFloat.fexp prec emax (Zpos (digits2_pos p) + e)).
  unfold shl_align. destruct (f - e) as [ | d | d ] eqn:E.
  - apply binary_round_aux_pos. exact Hmag.
  - apply binary_round_aux_pos. exact Hmag.
  - assert (Hd : Zpos (digits2_pos (Pos.iter xO p d)) + f
                 = Zpos (digits2_pos p) + e).
    { rewrite !digits2_log2, iter_xO, log2_mul_pow2 by lia. lia. }
    destruct (binary_round_aux_pos s (Pos.iter xO p d) f loc_Exact)
      as [H | (m' & e' & H & Hb & He)]; [ lia | left; exact H | ].
    right. exists m', e'. split; [ exact H | ]. lia.
Qed.

Lemma bounded_spec (m : positive) (e : Z) :
  bounded prec emax m e = true ->
  e = Z.max (Zpos (digits2_pos m) + e - 53) (-1074) /\ e <= 971.
Proof.
  unfold bounded, canonical_mantissa. intros H.
  apply andb_true_iff in H. destruct H as [Hc He].
  apply Z.eqb_eq in Hc. apply Z.leb_le in He.
  rewrite fexp_spec in Hc. change (emax - prec) with 971 in He. lia.
Qed.

(** The exact difference of two valid finite floats, as [SFsub] forms it
    before rounding, is positive when the first is the greater. *)
Lemma aligned_difference_pos (sx sy : bool) (mx my : positive) (ex ey : Z) :
  bounded prec emax mx ex = true ->
  bounded prec emax my ey = true ->
  SFcompare (S754_finite sx mx ex) (S754_finite sy my ey) = Some Gt ->
  0 < cond_Zopp sx (Zpos (fst (shl_align mx ex (Z.min ex ey))))
      - cond_Zopp sy (Zpos (fst (shl_align my ey (Z.min ex ey)))).
Proof.
  intros Hx Hy Hc.
  apply bounded_spec in Hx, Hy. destruct Hx as [Hx _], Hy as [Hy _].
  destruct (shl_align_spec mx ex (Z.min ex ey)) as [Ex _]; [ lia | ].
  destruct (shl_align_spec my ey (Z.min ex ey)) as [Ey _]; [ lia | ].
  rewrite Ex, Ey. clear Ex Ey.
  pose proof (digits2_bounds mx) as Bx. pose proof (digits2_bounds my) as By.
  set (dx := Zpos (digits2_pos mx)) in *. set (dy := Zpos (digits2_pos my)) in *.
  assert (Hpx : 0 < 2 ^ (ex - Z.min ex ey)) by (apply Z.pow_pos_nonneg; lia).
  assert (Hpy : 0 < 2 ^ (ey - Z.min ex ey)) by (apply Z.pow_pos_nonneg; lia).
  assert (Big : forall (ma mb : positive) (ea eb : Z),
             ea = Z.max (Zpos (digits2_pos ma) + ea - 53) (-1074) ->
             eb = Z.max (Zpos (digits2_pos mb) + eb - 53) (-1074) ->
             eb < ea ->
             Zpos mb * 2 ^ (eb - Z.min ea eb)
             < Zpos ma * 2 ^ (ea - Z.min ea eb)).
  { intros ma mb ea eb Ha Hb Hlt.
    pose proof (digits2_bounds ma) as Ba. pose proof (digits2_bounds mb) as Bb.
    replace (Z.min ea eb) with eb by lia.
    rewrite Z.sub_diag, Z.pow_0_r, Z.mul_1_r.
    assert (Hda : Zpos (digits2_pos ma) = 53) by lia.
    assert (Hdb : Zpos (digits2_pos mb) <= 53) by lia.
    rewrite Hda in Ba.
    assert (Hb53 : Zpos mb < 2 ^ 53).
    { apply Z.lt_le_trans with (2 ^ Zpos (digits2_pos mb)); [ lia | ].
      apply Z.pow_le_mono_r; lia. }
    assert (H2 : 2 ^ 1 <= 2 ^ (ea - eb)) by (apply Z.pow_le_mono_r; lia).
    change (2 ^ 1) with 2 in H2. change (2 ^ (53 - 1)) with (2 ^ 52) in Ba.
    change (2 ^ 53) with (2 * 2 ^ 52) in Hb53. nia. }
  cbn in Hc. destruct sx, sy; cbn [cond_Zopp]; try discriminate Hc.
  - (* both negative *)
    destruct (Z.compare_spec ex ey) as [E | E | E]; try discriminate Hc.
    + subst ey. rewrite Z.min_id, Z.sub_diag, Z.pow_0_r, !Z.mul_1_r.
      change (Pos.compare_cont Eq mx my) with (mx ?= my)%positive in Hc.
      destruct (mx ?= my)%positive eqn:Hm; try discriminate Hc.
      change (Zpos mx < Zpos my) in Hm. clear - Hm. lia.
    + pose proof (Big my mx ey ex Hy Hx E) as H.
      rewrite Z.min_comm in H. lia.
  - lia.
  - (* both positive *)
    destruct (Z.compare_spec ex ey) as [E | E | E]; try discriminate Hc.
    + subst ey. rewrite Z.min_id, Z.sub_diag, Z.pow_0_r, !Z.mul_1_r.
      change (Pos.compare_cont Eq mx my) with (mx ?= my)%positive in Hc.
      destruct (mx ?= my)%positive eqn:Hm; try discriminate Hc.
      change (Zpos mx > Zpos my) in Hm. clear - Hm. lia.
    + pose proof (Big mx my ex ey Hx Hy E) as H. lia.
Qed.

(** The two steps of a rounding, spelled out: a shift to the exponent of
    the binade, a rounding of the last place, and one more shift when that
    carried into the next binade. *)
Lemma binary_round_aux_spec (s : bool) (p : positive) (e : Z) (l : location) :
  emin < Zpos (digits2_pos p) + e ->
  exists m2,
    let e1 := Z.max e (fexp (Zpos (digits2_pos p) + e)) in
    let m1 := Z.shiftr (Zpos p) (e1 - e) in
    let e2 := Z.max e1 (fexp (Zdigits2 m2 + e1)) in
    0 < m1 /\ m1 <= m2 <= m1 + 1
    /\ Zdigits2 m1 + e1 = Zpos (digits2_pos p) + e
    /\ 0 < Z.shiftr m2 (e2 - e1)
    /\ Zdigits2 (Z.shiftr m2 (e2 - e1)) + e2 = Zdigits2 m2 + e1
    /\ binary_round_aux prec emax s (Zpos p) e l
       = if e2 <=? emax - prec
         then S754_finite s (Z.to_pos (Z.shiftr m2 (e2 - e1))) e2
         else S754_infinity s.
Proof.
  intros Hmag. unfold binary_round_aux.
  destruct (shr_fexp_pos (Zpos p) e l eq_refl Hmag)
    as (mrs1 & e1 & E1 & Hpos1 & Hmag1 & Hle1 & He1 & Hm1).
  rewrite E1.
  pose proof (rne_bounds (shr_m mrs1) (loc_of_shr_record mrs1)) as Hr.
  set (m2 := round_nearest_even (shr_m mrs1) (loc_of_shr_record mrs1)) in *.
  assert (Hm2 : 0 < m2) by lia.
  assert (Hd2 : Zdigits2 (shr_m mrs1) <= Zdigits2 m2).
  { apply Zdigits2_mono; lia. }
  cbn [Zdigits2] in Hmag1, He1.
  destruct (shr_fexp_pos m2 e1 loc_Exact Hm2)
    as (mrs2 & e2 & E2 & Hpos2 & Hmag2 & Hle2 & He2 & Hsh2); [ lia | ].
  rewrite E2.
  exists m2. cbn zeta. rewrite <- He1, <- Hm1, <- He2, <- Hsh2.
  repeat split; try lia.
  destruct (shr_m mrs2) as [ | m' | m' ] eqn:Em; try lia.
  reflexivity.
Qed.

(** *** Comparisons *)

Lemma compare_cont_antisym_lt (m n : positive) :
  Pos.compare_cont Eq m n = Lt -> Pos.compare_cont Eq n m = Gt.
Proof.
  change (Pos.compare_cont Eq m n) with (m ?= n)%positive.
  change (Pos.compare_cont Eq n m) with (n ?= m)%positive.
  intros H. rewrite Pos.compare_antisym, H. reflexivity.
Qed.

Lemma compare_cont_antisym_gt (m n : positive) :
  Pos.compare_cont Eq m n = Gt -> Pos.compare_cont Eq n m = Lt.
Proof.
  change (Pos.compare_cont Eq m n) with (m ?= n)%positive.
  change (Pos.compare_cont Eq n m) with (n ?= m)%positive.
  intros H. rewrite Pos.compare_antisym, H. reflexivity.
Qed.

Lemma SFcompare_antisym (x y : spec_float) :
  SFcompare x y = Some Lt -> SFcompare y x = Some Gt.
Proof.
  destruct x as [ sx | sx | | sx mx ex ], y as [ sy | sy | | sy my ey ];
    cbn; try discriminate; try (destruct sx; discriminate);
    try (destruct sy; discriminate);
    try (destruct sx, sy; (discriminate || reflexivity)).
  destruct sx, sy; try discriminate; try reflexivity;
    rewrite (Z.compare_antisym ex ey);
    destruct (ex ?= ey); cbn; try discriminate; try reflexivity; intros H.
  - destruct (Pos.compare_cont Eq mx my) eqn:E; try discriminate H.
    rewrite (compare_cont_antisym_gt _ _ E). reflexivity.
  - inversion H as [E].
    rewrite (compare_cont_antisym_lt _ _ E). reflexivity.
Qed.

Lemma lt_compare (a b : Py.float) :
  Py.lt a b = true <-> SFcompare a b = Some Lt.
Proof.
  unfold Py.lt, SFltb. destruct (SFcompare a b) as [ [ | | ] | ];
    split; intros H; (reflexivity || discriminate || congruence).
Qed.

Lemma lt_not_le (a b : Py.float) : Py.lt a b = true -> Py.le b a = false.
Proof.
  intros H. apply lt_compare, SFcompare_antisym in H.
  unfold Py.le, SFleb. rewrite H. reflexivity.
Qed.

Lemma lt_not_ge (a b : Py.float) : Py.lt a b = true -> Py.ge a b = false.
Proof. apply lt_not_le. Qed.

Lemma le_false_cases (a b : Py.float) :
  Py.le a b = false ->
  SFcompare a b = Some Gt
  \/ (Py.is_nan a = true \/ Py.is_nan b = true).
Proof.
  unfold Py.le, SFleb.
  destruct a as [ sx | sx | | sx mx ex ], b as [ sy | sy | | sy my ey ];
    cbn; auto;
    match goal with
    | |- context [ match ?c with _ => _ end ] =>
        destruct c eqn:E; auto; discriminate
    | _ => idtac
    end.
Qed.

Lemma fsub_nan (a b : Py.float) :
  Py.is_nan a = true \/ Py.is_nan b = true -> Py.fsub a b = S754_nan.
Proof.
  intros [H | H]; destruct a, b; try discriminate H; reflexivity.
Qed.

(** *** Subtraction of a smaller float *)

Lemma fsub_gt (a b : Py.float) :
  Py.valid a -> Py.valid b -> SFcompare a b = Some Gt ->
  Py.fsub a b = S754_infinity false
  \/ exists m e, Py.fsub a b = S754_finite false m e.
Proof.
  intros Va Vb Hc.
  destruct a as [ sx | sx | | sx mx ex ], b as [ sy | sy | | sy my ey ];
    cbn in Hc; try discriminate Hc.
  - destruct sy; try discriminate Hc. left. reflexivity.
  - destruct sy; try discriminate Hc. right. eexists _, _. reflexivity.
  - destruct sx; try discriminate Hc. left. reflexivity.
  - destruct sx, sy; try discriminate Hc. left. reflexivity.
  - destruct sx; try discriminate Hc. left. reflexivity.
  - destruct sx; try discriminate Hc. right. eexists _, _. reflexivity.
  - destruct sy; try discriminate Hc. left. reflexivity.
  - unfold Py.valid in Va, Vb. cbn [valid_binary] in Va, Vb.
    pose proof (aligned_difference_pos sx sy mx my ex ey Va Vb) as HD.
    cbn [SFcompare] in HD. specialize (HD Hc).
    apply bounded_spec in Va, Vb.
    unfold Py.fsub. cbn [SFsub]. cbn zeta.
    set (D := cond_Zopp sx (Zpos (fst (shl_align mx ex (Z.min ex ey))))
              - cond_Zopp sy (Zpos (fst (shl_align my ey (Z.min ex ey))))) in *.
    destruct D as [ | d | d ] eqn:ED; try lia.
    cbn [binary_normalize].
    destruct (binary_round_pos false d (Z.min ex ey))
      as [H | (m' & e' & H & _)].
    + rewrite emin_val. pose proof (Pos2Z.is_pos (digits2_pos d)). lia.
    + left. exact H.
    + right. exists m', e'. exact H.
Qed.

Lemma fsub_gt_not_zero (a b : Py.float) :
  Py.valid a -> Py.valid b -> Py.le a b = false ->
  Py.is_zero (Py.fsub a b) = false.
Proof.
  intros Va Vb H. destruct (le_false_cases _ _ H) as [Hc | Hn].
  - destruct (fsub_gt a b Va Vb Hc) as [E | (m & e & E)]; rewrite E;
      reflexivity.
  - rewrite (fsub_nan _ _ Hn). reflexivity.
Qed.

Lemma fsub_gt_positive (a b : Py.float) :
  Py.valid a -> Py.valid b -> Py.lt b a = true ->
  Py.lt Py.zero (Py.fsub a b) = true.
Proof.
  intros Va Vb H. apply lt_compare, SFcompare_antisym in H.
  destruct (fsub_gt a b Va Vb H) as [E | (m & e & E)]; rewrite E;
    reflexivity.
Qed.

(** *** Rounding stays finite below the range's end *)

Lemma binary_round_aux_finite (s : bool) (p : positive) (e : Z) (l : location) :
  emin < Zpos (digits2_pos p) + e ->
  Zpos (digits2_pos p) + e < emax ->
  e <= emax - prec ->
  exists m' e',
    binary_round_aux prec emax s (Zpos p) e l = S754_finite s m' e'
    /\ Zpos (digits2_pos p) + e <= Zpos (digits2_pos m') + e'
       <= Zpos (digits2_pos p) + e + 1.
Proof.
  intros Hlo Hhi He.
  destruct (binary_round_aux_spec s p e l Hlo) as (m2 & H).
  cbn zeta in H.
  destruct H as (Hm1 & Hm2 & Hmag1 & Hpos & Hmag2 & E).
  set (e1 := Z.max e (fexp (Zpos (digits2_pos p) + e))) in *.
  set (m1 := Z.shiftr (Zpos p) (e1 - e)) in *.
  set (e2 := Z.max e1 (fexp (Zdigits2 m2 + e1))) in *.
  assert (Hd : Zdigits2 m1 <= Zdigits2 m2 <= Zdigits2 m1 + 1).
  { split; [ apply Zdigits2_mono; lia | ].
    apply Z.le_trans with (Zdigits2 (m1 + 1)).
    - apply Zdigits2_mono; lia.
    - apply Zdigits2_succ; lia. }
  assert (He2 : e2 <= emax - prec).
  { unfold e2, e1. rewrite !fexp_spec.
    change (emax - prec) with 971 in *. change emax with 1024 in Hhi.
    unfold e1 in Hmag1. rewrite fexp_spec in Hmag1. lia. }
  apply Z.leb_le in He2. rewrite He2 in E.
  exists (Z.to_pos (Z.shiftr m2 (e2 - e1))), e2. split; [ exact E | ].
  destruct (Z.shiftr m2 (e2 - e1)) as [ | q | q ] eqn:Eq; try lia.
  cbn [Z.to_pos]. cbn [Zdigits2] in Hmag2. lia.
Qed.

Lemma binary_round_finite (s : bool) (p : positive) (e : Z) :
  emin < Zpos (digits2_pos p) + e ->
  Zpos (digits2_pos p) + e < emax ->
  exists m' e',
    binary_round prec emax s p e = S754_finite s m' e'
    /\ Zpos (digits2_pos p) + e <= Zpos (digits2_pos m') + e'
       <= Zpos (digits2_pos p) + e + 1.
Proof.
  intros Hlo Hhi. unfold binary_round.
  set (f := SpecFloat.fexp prec emax (Zpos (digits2_pos p) + e)).
  assert (Hf : f = Z.max (Zpos (digits2_pos p) + e - 53) (-1074))
    by apply fexp_spec.
  unfold shl_align. destruct (f - e) as [ | d | d ] eqn:E.
  - apply binary_round_aux_finite; try assumption.
    change (emax - prec) with 971. change emax with 1024 in Hhi. lia.
  - apply binary_round_aux_finite; try assumption.
    change (emax - prec) with 971. change emax with 1024 in Hhi. lia.
  - assert (Hd : Zpos (digits2_pos (Pos.iter xO p d)) + f
                 = Zpos (digits2_pos p) + e).
    { rewrite !digits2_log2, iter_xO, log2_mul_pow2 by lia. lia. }
    destruct (binary_round_aux_finite s (Pos.iter xO p d) f loc_Exact)
      as (m' & e' & H & Hb).
    + rewrite Hd. exact Hlo.
    + rewrite Hd. exact Hhi.
    + change (emax - prec) with 971. change emax with 1024 in Hhi. lia.
    + exists m', e'. split; [ exact H | ]. lia.
Qed.

(** *** Converting an [int] *)

Lemma float_of_int_of_int (n : Z) (x : Py.float) :
  Py.float_of_int n = Py.Ok x -> x = Py.of_int n.
Proof.
  unfold Py.float_of_int. destruct (Py.of_int n); intros H;
    inversion H; reflexivity.
Qed.

Lemma float_of_int_raises (n : Z) (x : Py.exn) :
  Py.float_of_int n = Py.Raise x -> x = Py.OverflowError.
Proof.
  unfold Py.float_of_int. destruct (Py.of_int n); intros H;
    inversion H; reflexivity.
Qed.

Lemma float_of_int_cases (n : Z) (x : Py.float) :
  Py.float_of_int n = Py.Ok x ->
  (n = 0 /\ x = Py.zero)
  \/ exists m e,
       x = S754_finite (n <? 0) m e /\ n <> 0
       /\ 1 <= Zpos (digits2_pos m) + e.
Proof.
  unfold Py.float_of_int, Py.of_int. destruct n as [ | p | p ];
    cbn [binary_normalize].
  - intros H. inversion H. left. split; reflexivity.
  - destruct (binary_round_pos false p 0) as [E | (m & e & E & Hb & _)].
    + rewrite emin_val. pose proof (Pos2Z.is_pos (digits2_pos p)). lia.
    + rewrite E. discriminate.
    + rewrite E. intros H. inversion H. right. exists m, e.
      pose proof (Pos2Z.is_pos (digits2_pos p)).
      repeat split; try lia.
  - destruct (binary_round_pos true p 0) as [E | (m & e & E & Hb & _)].
    + rewrite emin_val. pose proof (Pos2Z.is_pos (digits2_pos p)). lia.
    + rewrite E. discriminate.
    + rewrite E. intros H. inversion H. right. exists m, e.
      pose proof (Pos2Z.is_pos (digits2_pos p)).
      repeat split; try lia.
Qed.

Lemma small_int_converts (n : Z) :
  Z.abs n < 2 ^ 1022 -> converts n.
Proof.
  intros Hn. unfold converts, Py.float_of_int, Py.of_int.
  destruct n as [ | p | p ]; cbn [binary_normalize].
  - eexists. reflexivity.
  - destruct (binary_round_finite false p 0) as (m & e & E & _).
    + rewrite emin_val. pose proof (Pos2Z.is_pos (digits2_pos p)). lia.
    + rewrite digits2_log2. change emax with 1024.
      assert (Z.log2 (Zpos p) < 1022) by (apply Z.log2_lt_pow2; lia). lia.
    + rewrite E. eexists. reflexivity.
  - destruct (binary_round_finite true p 0) as (m & e & E & _).
    + rewrite emin_val. pose proof (Pos2Z.is_pos (digits2_pos p)). lia.
    + rewrite digits2_log2. change emax with 1024.
      assert (Z.log2 (Zpos p) < 1022).
      { apply Z.log2_lt_pow2; [ lia | ]. cbn [Z.abs] in Hn. exact Hn. }
      lia.
    + rewrite E. eexists. reflexivity.
Qed.

Lemma int64_converts (n : Z) : app.int64 n = true -> converts n.
Proof.
  unfold app.int64. intros H. apply andb_true_iff in H.
  destruct H as [H1 H2]. apply Z.leb_le in H1. apply Z.ltb_lt in H2.
  apply small_int_converts.
  assert (2 ^ 63 < 2 ^ 1022) by (apply Z.pow_lt_mono_r; lia). lia.
Qed.

(** *** Signs *)

Lemma shr_fexp_nonneg (m e : Z) (l : location) :
  0 <= m -> 0 <= shr_m (fst (shr_fexp prec emax m e l)).
Proof.
  intros Hm. unfold shr_fexp, shr.
  assert (Hrec : shr_m (shr_record_of_loc m l) = m)
    by (destruct l as [ | [ | | ] ]; reflexivity).
  destruct (fexp (Zdigits2 m + e) - e) as [ | p | p ]; cbn [fst];
    try (rewrite Hrec; exact Hm).
  apply iter_shr_1. rewrite Hrec. exact Hm.
Qed.

(** Rounding keeps the sign it is given. *)
Lemma binary_round_aux_sign (s : bool) (m e : Z) (l : location) :
  0 <= m -> sign_of (binary_round_aux prec emax s m e l) = Some s.
Proof.
  intros Hm. unfold binary_round_aux.
  pose proof (shr_fexp_nonneg m e l Hm) as H1.
  destruct (shr_fexp prec emax m e l) as [mrs1 e1]. cbn [fst] in H1.
  pose proof (rne_bounds (shr_m mrs1) (loc_of_shr_record mrs1)) as Hr.
  set (m2 := round_nearest_even (shr_m mrs1) (loc_of_shr_record mrs1)) in *.
  assert (Hm2 : 0 <= m2) by lia.
  pose proof (shr_fexp_nonneg m2 e1 loc_Exact Hm2) as H2.
  destruct (shr_fexp prec emax m2 e1 loc_Exact) as [mrs2 e2]. cbn [fst] in H2.
  destruct (shr_m mrs2) as [ | q | q ]; try lia; try reflexivity.
  destruct (e2 <=? emax - prec); reflexivity.
Qed.

Lemma fmul_sign (x y : Py.float) (sx sy : bool) :
  sign_of x = Some sx -> sign_of y = Some sy ->
  Py.fmul x y = S754_nan \/ sign_of (Py.fmul x y) = Some (xorb sx sy).
Proof.
  intros Hx Hy. unfold Py.fmul.
  destruct x as [ s1 | s1 | | s1 m1 e1 ], y as [ s2 | s2 | | s2 m2 e2 ];
    cbn in Hx, Hy; try discriminate;
    inversion Hx; inversion Hy; subst; cbn [SFmul]; auto.
  right. apply binary_round_aux_sign. lia.
Qed.

Lemma div_core_nonneg (m1 m2 : positive) (e1 e2 : Z) :
  0 <= fst (fst (SFdiv_core_binary prec emax (Zpos m1) e1 (Zpos m2) e2)).
Proof.
  unfold SFdiv_core_binary.
  set (e' := Z.min _ _). set (s := e1 - e2 - e').
  set (m' := match s with
             | 0 => Zpos m1
             | Zpos _ => Z.shiftl (Zpos m1) s
             | Zneg _ => 0
             end).
  assert (Hm' : 0 <= m').
  { unfold m'. destruct s; try lia. apply Z.shiftl_nonneg. lia. }
  pose proof (Z.div_pos m' (Zpos m2) Hm' eq_refl) as Hq.
  unfold Z.div in Hq.
  destruct (Z.div_eucl m' (Zpos m2)) as [q r]. cbn [fst] in *. exact Hq.
Qed.

Lemma fdiv_sign (x y : Py.float) (sx sy : bool) :
  sign_of x = Some sx -> sign_of y = Some sy ->
  Py.fdiv x y = S754_nan \/ sign_of (Py.fdiv x y) = Some (xorb sx sy).
Proof.
  intros Hx Hy. unfold Py.fdiv.
  destruct x as [ s1 | s1 | | s1 m1 e1 ], y as [ s2 | s2 | | s2 m2 e2 ];
    cbn in Hx, Hy; try discriminate;
    inversion Hx; inversion Hy; subst; cbn [SFdiv]; auto.
  right.
  pose proof (div_core_nonneg m1 m2 e1 e2) as Hq.
  destruct (SFdiv_core_binary prec emax (Zpos m1) e1 (Zpos m2) e2)
    as [ [mz ez] lz ].
  cbn [fst] in Hq. apply binary_round_aux_sign. exact Hq.
Qed.

Lemma negative_not_positive (x : Py.float) :
  x = S754_nan \/ sign_of x = Some true -> Py.lt Py.zero x = false.
Proof.
  intros [H | H]; destruct x as [ s | s | | s m e ]; cbn in H;
    try discriminate H; try reflexivity;
    inversion H; subst; reflexivity.
Qed.

Lemma positive_sign (x : Py.float) :
  Py.lt Py.zero x = true -> sign_of x = Some false.
Proof.
  destruct x as [ s | [ | ] | | [ | ] m e ]; cbn; intros H;
    try discriminate H; reflexivity.
Qed.

(** A zero times or over anything is a zero or NaN. *)
Lemma fmul_zero_l (y : Py.float) :
  Py.is_zero (Py.fmul Py.zero y) = true \/ Py.fmul Py.zero y = S754_nan.
Proof. destruct y; cbn; auto. Qed.

Lemma fdiv_zero_or_nan_l (x y : Py.float) :
  Py.is_zero x = true \/ x = S754_nan ->
  Py.is_zero (Py.fdiv x y) = true \/ Py.fdiv x y = S754_nan.
Proof.
  intros [H | H]; destruct x; try discriminate H; destruct y; cbn; auto.
Qed.

Lemma zero_or_nan_not_positive (x : Py.float) :
  Py.is_zero x = true \/ x = S754_nan -> Py.lt Py.zero x = false.
Proof.
  intros [H | H]; destruct x; try discriminate H; reflexivity.
Qed.

(** *** Rounding below a float *)

Lemma fexp_mono (x y : Z) : x <= y -> fexp x <= fexp y.
Proof. intros H. rewrite !fexp_spec. lia. Qed.

(** A number of the binade of a float [mb * 2^eb] and below it rounds to
    a float that is not above it. *)
Lemma binary_round_aux_below (s : bool) (p mb : positive) (e eb : Z)
      (l : location) :
  bounded prec emax mb eb = true ->
  emin < Zpos (digits2_pos p) + e ->
  Zpos (digits2_pos p) + e = Zpos (digits2_pos mb) + eb ->
  e <= eb ->
  Z.shiftr (Zpos p) (eb - e) < Zpos mb ->
  exists m' e',
    binary_round_aux prec emax s (Zpos p) e l = S754_finite s m' e'
    /\ Zpos (digits2_pos m') + e' <= Zpos (digits2_pos mb) + eb.
Proof.
  intros Hb Hlo Hmag Hle Hlt.
  apply bounded_spec in Hb. destruct Hb as [Hcan Hmax].
  destruct (binary_round_aux_spec s p e l Hlo) as (m2 & H).
  cbn zeta in H. rewrite Hmag in H.
  assert (E1 : Z.max e (fexp (Zpos (digits2_pos mb) + eb)) = eb)
    by (rewrite fexp_spec; lia).
  rewrite E1 in H.
  destruct H as (Hm1 & Hm2 & Hmag1 & Hpos & Hmag2 & E).
  assert (Hd2 : Zdigits2 m2 <= Zpos (digits2_pos mb)).
  { change (Zpos (digits2_pos mb)) with (Zdigits2 (Zpos mb)).
    apply Zdigits2_mono; lia. }
  assert (E2 : Z.max eb (fexp (Zdigits2 m2 + eb)) = eb).
  { rewrite fexp_spec. lia. }
  rewrite E2 in *.
  assert (Hfin : (eb <=? emax - prec) = true)
    by (apply Z.leb_le; change (emax - prec) with 971; exact Hmax).
  rewrite Hfin in E.
  exists (Z.to_pos (Z.shiftr m2 (eb - eb))), eb. split; [ exact E | ].
  destruct (Z.shiftr m2 (eb - eb)) as [ | q | q ] eqn:Eq; try lia.
  cbn [Z.to_pos]. cbn [Zdigits2] in Hmag2. lia.
Qed.

Lemma binary_round_below (s : bool) (p mb : positive) (e eb : Z) :
  bounded prec emax mb eb = true ->
  emin < Zpos (digits2_pos p) + e ->
  Zpos p * 2 ^ (e - Z.min e eb) < Zpos mb * 2 ^ (eb - Z.min e eb) ->
  exists m' e',
    binary_round prec emax s p e = S754_finite s m' e'
    /\ Zpos (digits2_pos m') + e' <= Zpos (digits2_pos mb) + eb.
Proof.
  intros Hb Hlo Hlt.
  pose proof (bounded_spec _ _ Hb) as [Hcan Hmax].
  assert (Hmag : Zpos (digits2_pos p) + e <= Zpos (digits2_pos mb) + eb).
  { rewrite !digits2_log2.
    assert (H : Z.log2 (Zpos p * 2 ^ (e - Z.min e eb))
                <= Z.log2 (Zpos mb * 2 ^ (eb - Z.min e eb)))
      by (apply Z.log2_le_mono; lia).
    rewrite !log2_mul_pow2 in H by lia. lia. }
  destruct (Z.eq_dec (Zpos (digits2_pos p) + e)
                     (Zpos (digits2_pos mb) + eb)) as [Heq | Hne].
  - unfold binary_round.
    set (f := SpecFloat.fexp prec emax (Zpos (digits2_pos p) + e)).
    assert (Hf : f = eb).
    { unfold f. rewrite Heq, fexp_spec. lia. }
    unfold shl_align. destruct (f - e) as [ | d | d ] eqn:E.
    + apply binary_round_aux_below with (mb := mb) (eb := eb);
        try assumption; try lia.
      replace (Z.min e eb) with e in Hlt by lia.
      rewrite Z.sub_diag, Z.pow_0_r, Z.mul_1_r in Hlt.
      rewrite Z.shiftr_div_pow2 by lia.
      apply Z.div_lt_upper_bound; [ apply Z.pow_pos_nonneg; lia | ].
      lia.
    + apply binary_round_aux_below with (mb := mb) (eb := eb);
        try assumption; try lia.
      replace (Z.min e eb) with e in Hlt by lia.
      rewrite Z.sub_diag, Z.pow_0_r, Z.mul_1_r in Hlt.
      rewrite Z.shiftr_div_pow2 by lia.
      apply Z.div_lt_upper_bound; [ apply Z.pow_pos_nonneg; lia | ].
      lia.
    + assert (Hd : Zpos (digits2_pos (Pos.iter xO p d)) + f
                   = Zpos (digits2_pos p) + e).
      { rewrite !digits2_log2, iter_xO, log2_mul_pow2 by lia. lia. }
      apply binary_round_aux_below with (mb := mb) (eb := eb);
        try assumption; try lia.
      rewrite Hf, Z.sub_diag, Z.shiftr_0_r, iter_xO.
      replace (Z.min e eb) with eb in Hlt by lia.
      rewrite Z.sub_diag, Z.pow_0_r, Z.mul_1_r in Hlt.
      replace (Zpos d) with (e - eb) by lia. exact Hlt.
  - destruct (binary_round_finite s p e Hlo) as (m' & e' & E & Hm).
    + change emax with 1024. lia.
    + exists m', e'. split; [ exact E | ]. lia.
Qed.

(** *** Magnitudes of differences, products and quotients *)

(** The difference of two positive floats is finite and not above the
    greater one. *)
Lemma fsub_below (mx my : positive) (ex ey : Z) :
  bounded prec emax mx ex = true ->
  bounded prec emax my ey = true ->
  SFcompare (S754_finite false mx ex) (S754_finite false my ey) = Some Gt ->
  exists m e,
    Py.fsub (S754_finite false mx ex) (S754_finite false my ey)
    = S754_finite false m e
    /\ Zpos (digits2_pos m) + e <= Zpos (digits2_pos mx) + ex.
Proof.
  intros Vx Vy Hc.
  pose proof (aligned_difference_pos false false mx my ex ey Vx Vy Hc) as HD.
  pose proof (bounded_spec _ _ Vx) as [Hx _].
  pose proof (bounded_spec _ _ Vy) as [Hy _].
  unfold Py.fsub. cbn [SFsub]. cbn zeta. cbn [cond_Zopp] in *.
  destruct (shl_align_spec mx ex (Z.min ex ey)) as [Ex _]; [ lia | ].
  set (ax := Zpos (fst (shl_align mx ex (Z.min ex ey)))) in *.
  set (ay := Zpos (fst (shl_align my ey (Z.min ex ey)))) in *.
  assert (Hay : 0 < ay) by (unfold ay; lia).
  destruct (ax - ay) as [ | d | d ] eqn:ED; try lia.
  cbn [binary_normalize].
  apply binary_round_below; try assumption.
  - rewrite emin_val. pose proof (Pos2Z.is_pos (digits2_pos d)). lia.
  - replace (Z.min (Z.min ex ey) ex) with (Z.min ex ey) by lia.
    rewrite Z.sub_diag, Z.pow_0_r, Z.mul_1_r. lia.
Qed.

(** The difference of two floats, the first the greater, is at least one
    unit of the smaller exponent. *)
Lemma fsub_gt_mag (sx sy : bool) (mx my : positive) (ex ey : Z) :
  bounded prec emax mx ex = true ->
  bounded prec emax my ey = true ->
  SFcompare (S754_finite sx mx ex) (S754_finite sy my ey) = Some Gt ->
  Py.fsub (S754_finite sx mx ex) (S754_finite sy my ey) = S754_infinity false
  \/ exists m e,
       Py.fsub (S754_finite sx mx ex) (S754_finite sy my ey)
       = S754_finite false m e
       /\ Z.min ex ey + 1 <= Zpos (digits2_pos m) + e.
Proof.
  intros Vx Vy Hc.
  pose proof (aligned_difference_pos sx sy mx my ex ey Vx Vy Hc) as HD.
  pose proof (bounded_spec _ _ Vx) as [Hx _].
  pose proof (bounded_spec _ _ Vy) as [Hy _].
  unfold Py.fsub. cbn [SFsub]. cbn zeta.
  set (D := cond_Zopp sx (Zpos (fst (shl_align mx ex (Z.min ex ey))))
            - cond_Zopp sy (Zpos (fst (shl_align my ey (Z.min ex ey))))) in *.
  destruct D as [ | d | d ] eqn:ED; try lia.
  cbn [binary_normalize].
  pose proof (Pos2Z.is_pos (digits2_pos d)) as Hd.
  destruct (binary_round_pos false d (Z.min ex ey))
    as [H | (m' & e' & H & Hm & _)].
  - rewrite emin_val. lia.
  - left. exact H.
  - right. exists m', e'. split; [ exact H | ]. lia.
Qed.

Lemma digits2_mul (m1 m2 : positive) :
  Zpos (digits2_pos m1) + Zpos (digits2_pos m2) - 1
  <= Zpos (digits2_pos (m1 * m2)).
Proof.
  rewrite !digits2_log2, Pos2Z.inj_mul.
  pose proof (Z.log2_mul_below (Zpos m1) (Zpos m2) eq_refl eq_refl). lia.
Qed.

(** The product of two floats that is not below the smallest subnormal
    keeps the sign and is not rounded to zero. *)
Lemma fmul_mag (s1 s2 : bool) (m1 m2 : positive) (e1 e2 : Z) :
  emin < Zpos (digits2_pos m1) + e1 + (Zpos (digits2_pos m2) + e2) - 1 ->
  Py.fmul (S754_finite s1 m1 e1) (S754_finite s2 m2 e2)
  = S754_infinity (xorb s1 s2)
  \/ exists m e,
       Py.fmul (S754_finite s1 m1 e1) (S754_finite s2 m2 e2)
       = S754_finite (xorb s1 s2) m e
       /\ Zpos (digits2_pos m1) + e1 + (Zpos (digits2_pos m2) + e2) - 1
          <= Zpos (digits2_pos m) + e.
Proof.
  intros Hlo. unfold Py.fmul. cbn [SFmul].
  pose proof (digits2_mul m1 m2) as Hd.
  destruct (binary_round_aux_pos (xorb s1 s2) (m1 * m2) (e1 + e2) loc_Exact)
    as [H | (m' & e' & H & Hm & _)].
  - lia.
  - left. exact H.
  - right. exists m', e'. split; [ exact H | ]. lia.
Qed.

(** The quotient of two floats whose magnitudes are not too far apart
    keeps the sign and is not rounded to zero. *)
Lemma fdiv_mag (s1 s2 : bool) (m1 m2 : positive) (e1 e2 : Z) :
  - 1073 <= Zpos (digits2_pos m1) + e1 - (Zpos (digits2_pos m2) + e2) ->
  Py.fdiv (S754_finite s1 m1 e1) (S754_finite s2 m2 e2)
  = S754_infinity (xorb s1 s2)
  \/ exists m e,
       Py.fdiv (S754_finite s1 m1 e1) (S754_finite s2 m2 e2)
       = S754_finite (xorb s1 s2) m e.
Proof.
  intros Hlo. unfold Py.fdiv. cbn [SFdiv]. unfold SFdiv_core_binary.
  cbn [Zdigits2].
  set (d1 := Zpos (digits2_pos m1)) in *.
  set (d2 := Zpos (digits2_pos m2)) in *.
  set (e' := Z.min (SpecFloat.fexp prec emax (d1 + e1 - (d2 + e2))) (e1 - e2)).
  assert (He' : e' <= Z.max (d1 + e1 - (d2 + e2) - 53) (-1074)
                /\ e' <= e1 - e2).
  { unfold e'. rewrite fexp_spec. lia. }
  set (sh := e1 - e2 - e').
  assert (Hsh : 0 <= sh) by (unfold sh; lia).
  set (m' := match sh with
             | 0 => Zpos m1
             | Zpos _ => Z.shiftl (Zpos m1) sh
             | Zneg _ => 0
             end).
  assert (Em' : m' = Zpos m1 * 2 ^ sh).
  { unfold m'. destruct sh as [ | k | k ] eqn:Es; try lia.
    rewrite Z.shiftl_mul_pow2 by lia. reflexivity. }
  pose proof (digits2_bounds m1) as B1. pose proof (digits2_bounds m2) as B2.
  fold d1 in B1. fold d2 in B2.
  set (k := d1 + sh - 1 - d2).
  assert (Hk : 0 <= k) by (unfold k, sh; lia).
  assert (Hq : 2 ^ k <= m' / Zpos m2).
  { apply Z.div_le_lower_bound; [ lia | ].
    rewrite Em'.
    apply Z.le_trans with (2 ^ d2 * 2 ^ k).
    - apply Z.mul_le_mono_nonneg_r; [ apply Z.pow_nonneg; lia | lia ].
    - rewrite <- Z.pow_add_r by lia.
      replace (d2 + k) with (d1 - 1 + sh) by (unfold k; lia).
      rewrite Z.pow_add_r by lia.
      apply Z.mul_le_mono_nonneg_r; [ apply Z.pow_nonneg; lia | lia ]. }
  unfold Z.div in Hq.
  destruct (Z.div_eucl m' (Zpos m2)) as [q r]. cbn [fst] in Hq.
  assert (Hqpos : 0 < q).
  { apply Z.lt_le_trans with (2 ^ k); [ apply Z.pow_pos_nonneg; lia | lia ]. }
  destruct q as [ | q | q ]; try lia.
  assert (Hdq : k + 1 <= Zpos (digits2_pos q)).
  { rewrite digits2_log2.
    assert (k <= Z.log2 (Zpos q)) by (apply Z.log2_le_pow2; lia). lia. }
  destruct (binary_round_aux_pos (xorb s1 s2) q e'
              (new_location (Zpos m2) r))
    as [H | (m & e & H & _)].
  - rewrite emin_val. unfold k, sh in Hdq. lia.
  - left. exact H.
  - right. exists m, e. exact H.
Qed.

(** *** The break-even quotient of positive prices *)

Lemma positive_cases (x : Py.float) :
  Py.lt Py.zero x = true ->
  x = S754_infinity false \/ exists m e, x = S754_finite false m e.
Proof.
  destruct x as [ s | [ | ] | | [ | ] m e ]; cbn; intros H;
    try discriminate H; [ left; reflexivity | right; eauto ].
Qed.

Lemma lt_finite_exponents (m1 m2 : positive) (e1 e2 : Z) :
  SFcompare (S754_finite false m1 e1) (S754_finite false m2 e2) = Some Lt ->
  e1 <= e2.
Proof.
  cbn. destruct (Z.compare_spec e1 e2) as [E | E | E]; intros H; try lia.
  discriminate H.
Qed.

Lemma break_even_positive (q1 : Z) (q1f p1 p2 p_target : Py.float) :
  Py.valid p1 -> Py.valid p2 -> Py.valid p_target ->
  0 < q1 -> Py.float_of_int q1 = Py.Ok q1f ->
  Py.lt Py.zero p2 = true ->
  Py.lt p2 p_target = true ->
  Py.lt p_target p1 = true ->
  Py.lt Py.zero (break_even_double q1f p1 p2 p_target) = true.
Proof.
  intros V1 V2 Vt Hq Eq H2 H2t Ht1.
  destruct (positive_cases _ H2) as [-> | (m2 & e2 & ->)];
    [ destruct p_target as [ | [ | ] | | ]; discriminate H2t | ].
  apply lt_compare in H2t, Ht1.
  destruct p_target as [ st | st | | st mt et ];
    try (cbn in H2t; discriminate H2t).
  { destruct st; cbn in H2t; try discriminate H2t.
    destruct p1 as [ | [ | ] | | ]; discriminate Ht1. }
  destruct st; [ cbn in H2t; discriminate H2t | ].
  pose proof (lt_finite_exponents _ _ _ _ H2t) as He2t.
  unfold Py.valid in V2, Vt. cbn [valid_binary] in V2, Vt.
  pose proof (bounded_spec _ _ Vt) as [Hcant _].
  pose proof (Pos2Z.is_pos (digits2_pos mt)) as Hdt.
  (* the denominator *)
  destruct (fsub_below mt m2 et e2 Vt V2 (SFcompare_antisym _ _ H2t))
    as (md & ed & Ed & Hmd).
  (* the converted quantity *)
  destruct (float_of_int_cases _ _ Eq) as [ [Hz _] | (mq & eq & -> & _ & Hmq) ];
    [ lia | ].
  replace (q1 <? 0) with false by (symmetry; apply Z.ltb_ge; lia).
  unfold break_even_double. rewrite Ed.
  destruct p1 as [ s1 | s1 | | s1 m1 e1 ]; try (cbn in Ht1; discriminate Ht1).
  - destruct s1; cbn in Ht1; try discriminate Ht1. reflexivity.
  - destruct s1; [ cbn in Ht1; discriminate Ht1 | ].
    pose proof (lt_finite_exponents _ _ _ _ Ht1) as Het1.
    unfold Py.valid in V1. cbn [valid_binary] in V1.
    destruct (fsub_gt_mag false false m1 mt e1 et V1 Vt
                (SFcompare_antisym _ _ Ht1))
      as [E1 | (mn & en & E1 & Hmn)]; rewrite E1.
    + reflexivity.
    + destruct (fmul_mag false false mq mn eq en)
        as [En | (mp & ep & En & Hmp)].
      * rewrite emin_val. lia.
      * rewrite En. reflexivity.
      * rewrite En. cbn [xorb].
        destruct (fdiv_mag false false mp md ep ed)
          as [Eq2 | (m & e & Eq2)].
        -- lia.
        -- rewrite Eq2. reflexivity.
        -- rewrite Eq2. reflexivity.
Qed.

End Binary64.

(** ** The rationals the floats stand for *)

Section ExactValues.

Lemma two_power_pos (e : Z) : 0 < 2 ^ e.
Proof. apply Qpower_0_lt. reflexivity. Qed.

Lemma exact_ulps (x : Py.float) (a : Q) :
  Py.valid x -> Py.exact x = Some a ->
  a == inject_Z (ulps x) * 2 ^ (- 1074).
Proof.
  intros V E. destruct x as [ s | s | | s m e ]; cbn in E;
    try discriminate E; inversion E; subst a; clear E.
  - cbn [ulps]. change (inject_Z 0) with 0. ring.
  - unfold Py.valid in V. cbn [valid_binary] in V.
    apply bounded_spec in V. destruct V as [Hcan _].
    cbn [ulps]. rewrite inject_Z_mult.
    rewrite (Zpower_Qpower 2 (e + 1074)) by lia.
    change (inject_Z 2) with 2.
    rewrite <- Qmult_assoc, <- Qpower_plus by discriminate.
    replace (e + 1074 + - 1074)%Z with e by lia. reflexivity.
Qed.

Lemma lt_ulps (x y : Py.float) :
  Py.valid x -> Py.valid y ->
  Py.is_finite x = true -> Py.is_finite y = true ->
  Py.lt x y = true -> (ulps x < ulps y)%Z.
Proof.
  intros Vx Vy Fx Fy H. apply lt_compare in H.
  apply SFcompare_antisym in H.
  destruct x as [ sx | sx | | sx mx ex ], y as [ sy | sy | | sy my ey ];
    try discriminate Fx; try discriminate Fy; cbn in H;
    try discriminate H; cbn [ulps].
  - destruct sy; try discriminate H.
    assert (0 < 2 ^ (ey + 1074))%Z by (apply Z.pow_pos_nonneg; [ lia | ];
      unfold Py.valid in Vy; cbn [valid_binary] in Vy;
      apply bounded_spec in Vy; lia).
    cbn [cond_Zopp]. nia.
  - destruct sx; try discriminate H.
    assert (0 < 2 ^ (ex + 1074))%Z by (apply Z.pow_pos_nonneg; [ lia | ];
      unfold Py.valid in Vx; cbn [valid_binary] in Vx;
      apply bounded_spec in Vx; lia).
    cbn [cond_Zopp]. nia.
  - unfold Py.valid in Vx, Vy. cbn [valid_binary] in Vx, Vy.
    pose proof (aligned_difference_pos sy sx my mx ey ex Vy Vx) as HD.
    cbn [SFcompare] in HD. specialize (HD H).
    apply bounded_spec in Vx, Vy. destruct Vx as [Hx _], Vy as [Hy _].
    destruct (shl_align_spec my ey (Z.min ey ex)) as [Ey _]; [ lia | ].
    destruct (shl_align_spec mx ex (Z.min ey ex)) as [Ex _]; [ lia | ].
    rewrite Ex, Ey in HD. clear Ex Ey H.
    set (ez := Z.min ey ex) in *.
    assert (Hp : (0 < 2 ^ (ez + 1074))%Z) by (apply Z.pow_pos_nonneg; lia).
    assert (Ey : (2 ^ (ey + 1074) = 2 ^ (ey - ez) * 2 ^ (ez + 1074))%Z).
    { rewrite <- Z.pow_add_r by lia. f_equal. lia. }
    assert (Ex : (2 ^ (ex + 1074) = 2 ^ (ex - ez) * 2 ^ (ez + 1074))%Z).
    { rewrite <- Z.pow_add_r by lia. f_equal. lia. }
    rewrite Ex, Ey.
    set (ax := (2 ^ (ex - ez))%Z) in *. set (ay := (2 ^ (ey - ez))%Z) in *.
    set (c := (2 ^ (ez + 1074))%Z) in *.
    destruct sx, sy; cbn [cond_Zopp] in *; nia.
Qed.

(** The order of finite floats is the order of the rationals they stand
    for. *)
Lemma lt_exact (x y : Py.float) (a b : Q) :
  Py.valid x -> Py.valid y ->
  Py.exact x = Some a -> Py.exact y = Some b ->
  Py.lt x y = true -> a < b.
Proof.
  intros Vx Vy Ea Eb H.
  assert (Fx : Py.is_finite x = true) by (destruct x; try discriminate Ea; reflexivity).
  assert (Fy : Py.is_finite y = true) by (destruct y; try discriminate Eb; reflexivity).
  rewrite (exact_ulps x a Vx Ea), (exact_ulps y b Vy Eb).
  apply Qmult_lt_compat_r; [ apply two_power_pos | ].
  rewrite <- Zlt_Qlt. apply lt_ulps; assumption.
Qed.

End ExactValues.

(* ------------------------------------------------------------------ *)
(** ** The break-even solver *)

Section BreakEven.

Variables (q1 : Z) (p1 p2 p_target : Py.float).

Lemma solver_target_too_low :
  Py.le p_target p2 = true ->
  utils.calculate_shares_to_buy q1 p1 p2 p_target = Py.Ok None.
Proof. intros H. unfold utils.calculate_shares_to_buy. rewrite H. reflexivity. Qed.

Lemma solver_target_too_high :
  Py.ge p_target p1 = true ->
  utils.calculate_shares_to_buy q1 p1 p2 p_target = Py.Ok None.
Proof.
  intros H. unfold utils.calculate_shares_to_buy. rewrite H.
  destruct (Py.le p_target p2); reflexivity.
Qed.

(** Past the two checks, with a quantity that converts, the division is
    made and its quotient returned. *)
Lemma solver_in_range (q1f : Py.float) :
  Py.valid p2 -> Py.valid p_target ->
  Py.le p_target p2 = false -> Py.ge p_target p1 = false ->
  Py.float_of_int q1 = Py.Ok q1f ->
  utils.calculate_shares_to_buy q1 p1 p2 p_target
  = Py.Ok (Some (break_even_double q1f p1 p2 p_target)).
Proof.
  intros V2 Vt Hlo Hhi Hq.
  unfold utils.calculate_shares_to_buy, utils.formula, Py.int_mul_float,
    Py.truediv.
  rewrite Hlo, Hhi, Hq. cbn [Py.bind].
  rewrite (fsub_gt_not_zero _ _ Vt V2 Hlo). reflexivity.
Qed.

(** Past the two checks, a quantity too large for a float ends in the
    handler. *)
Lemma solver_overflow (x : Py.exn) :
  Py.le p_target p2 = false -> Py.ge p_target p1 = false ->
  Py.float_of_int q1 = Py.Raise x ->
  utils.calculate_shares_to_buy q1 p1 p2 p_target = Py.Ok None.
Proof.
  intros Hlo Hhi Hq.
  unfold utils.calculate_shares_to_buy, utils.formula, Py.int_mul_float.
  rewrite Hlo, Hhi, Hq. reflexivity.
Qed.

Lemma solver_returns :
  Py.valid p2 -> Py.valid p_target ->
  exists r, utils.calculate_shares_to_buy q1 p1 p2 p_target = Py.Ok r.
Proof.
  intros V2 Vt.
  destruct (Py.le p_target p2) eqn:Hlo;
    [ eexists; apply solver_target_too_low; exact Hlo | ].
  destruct (Py.ge p_target p1) eqn:Hhi;
    [ eexists; apply solver_target_too_high; exact Hhi | ].
  destruct (Py.float_of_int q1) as [q1f | x] eqn:Hq.
  - eexists. apply solver_in_range; eassumption.
  - eexists. eapply solver_overflow; eassumption.
Qed.

End BreakEven.

Lemma converts_not_raise (n : Z) (x : Py.exn) :
  converts n -> Py.float_of_int n <> Py.Raise x.
Proof. intros [y H]. rewrite H. discriminate. Qed.

Lemma not_converts_raises (n : Z) :
  ~ converts n -> Py.float_of_int n = Py.Raise Py.OverflowError.
Proof.
  intros H. destruct (Py.float_of_int n) as [y | x] eqn:E.
  - exfalso. apply H. exists y. exact E.
  - rewrite (float_of_int_raises _ _ E). reflexivity.
Qed.

(** C1 (as amended).  For valid floats with [p2 < p_target < p1],
    [calculate_shares_to_buy] returns the formula
    [q1 * (p1 - p_target) / (p_target - p2)] evaluated in double
    precision on [float(q1)], each operation rounded, when [q1] converts
    to a float, and [None] when [q1] is too large to convert. *)
Theorem solver_returns_formula (q1 : Z) (p1 p2 p_target : Py.float) :
  Py.valid p1 -> Py.valid p2 -> Py.valid p_target ->
  Py.lt p2 p_target = true -> Py.lt p_target p1 = true ->
  match Py.float_of_int q1 with
  | Py.Ok q1f =>
      utils.calculate_shares_to_buy q1 p1 p2 p_target
      = Py.Ok (Some (Py.fdiv (Py.fmul q1f (Py.fsub p1 p_target))
                             (Py.fsub p_target p2)))
  | Py.Raise _ =>
      utils.calculate_shares_to_buy q1 p1 p2 p_target = Py.Ok None
  end.
Proof.
  intros V1 V2 Vt Hlo Hhi.
  pose proof (lt_not_le _ _ Hlo) as Hle.
  pose proof (lt_not_ge _ _ Hhi) as Hge.
  destruct (Py.float_of_int q1) as [q1f | x] eqn:Hq.
  - apply solver_in_range; assumption.
  - eapply solver_overflow; eassumption.
Qed.

Lemma solver_returns_formula_witness :
  utils.calculate_shares_to_buy 10 (Py.nearest 100 1) (Py.nearest 60 1)
                                (Py.nearest 80 1)
  = Py.Ok (Some (Py.nearest 10 1)).
Proof.
  exact (solver_returns_formula 10 (Py.nearest 100 1) (Py.nearest 60 1)
           (Py.nearest 80 1) eq_refl eq_refl eq_refl eq_refl eq_refl).
Defined.

(** C1 as stated fails: with [q1 = 10^400] and the prices 100.0, 60.0 and
    target 80.0 the function returns [None], not a value; with
    [q1 = 2^53 + 1], 3.0, 1.0 and 2.0 it returns the float [2^53], which
    is not the value [2^53 + 1] of the formula. *)
Lemma solver_returns_formula_counterexample :
  (0 < 10 ^ 400)%Z
  /\ utils.calculate_shares_to_buy (10 ^ 400) (Py.nearest 100 1)
       (Py.nearest 60 1) (Py.nearest 80 1)
     = Py.Ok None
  /\ exists q2 : Py.float,
       utils.calculate_shares_to_buy (2 ^ 53 + 1) (Py.nearest 3 1)
         (Py.nearest 1 1) (Py.nearest 2 1)
       = Py.Ok (Some q2)
       /\ Py.exact q2 = Some (inject_Z (2 ^ 53) * 2 ^ 0)
       /\ ~ inject_Z (2 ^ 53) * 2 ^ 0
            == Exact.break_even_value (2 ^ 53 + 1) 3 1 2.
Proof.
  split; [ reflexivity | ].
  split; [ vm_compute; reflexivity | ].
  eexists. split; [ vm_compute; reflexivity | ].
  split; [ reflexivity | ].
  vm_compute. discriminate.
Qed.

(** C2 (as amended).  For valid floats, [calculate_shares_to_buy] never
    raises; it returns [None] exactly when [p_target <= p2], or
    [p_target >= p1], or [q1] is too large to convert to a float (the
    [OverflowError] is caught); in every other case it returns a float,
    the quotient of the formula (NaN when a price is NaN). *)
Theorem solver_no_solution_iff (q1 : Z) (p1 p2 p_target : Py.float) :
  Py.valid p2 -> Py.valid p_target ->
  (exists r, utils.calculate_shares_to_buy q1 p1 p2 p_target = Py.Ok r)
  /\ (utils.calculate_shares_to_buy q1 p1 p2 p_target = Py.Ok None
      <-> (Py.le p_target p2 = true \/ Py.ge p_target p1 = true
           \/ ~ converts q1))
  /\ (Py.le p_target p2 = false -> Py.ge p_target p1 = false ->
      forall q1f, Py.float_of_int q1 = Py.Ok q1f ->
      utils.calculate_shares_to_buy q1 p1 p2 p_target
      = Py.Ok (Some (Py.fdiv (Py.fmul q1f (Py.fsub p1 p_target))
                             (Py.fsub p_target p2)))).
Proof.
  intros V2 Vt.
  split; [ apply solver_returns; assumption | ].
  split.
  - split.
    + intros H.
      destruct (Py.le p_target p2) eqn:Hlo; [ left; reflexivity | ].
      destruct (Py.ge p_target p1) eqn:Hhi; [ right; left; reflexivity | ].
      right. right. intros [q1f Hq].
      rewrite (solver_in_range q1 p1 p2 p_target q1f V2 Vt Hlo Hhi Hq) in H.
      discriminate H.
    + intros [H | [H | H] ].
      * apply solver_target_too_low. exact H.
      * apply solver_target_too_high. exact H.
      * destruct (Py.le p_target p2) eqn:Hlo;
          [ apply solver_target_too_low; exact Hlo | ].
        destruct (Py.ge p_target p1) eqn:Hhi;
          [ apply solver_target_too_high; exact Hhi | ].
        apply solver_overflow with (x := Py.OverflowError); try assumption.
        apply not_converts_raises. exact H.
  - intros Hlo Hhi q1f Hq. apply solver_in_range; assumption.
Qed.

Lemma solver_no_solution_iff_witness :
  utils.calculate_shares_to_buy 5 (Py.nearest 50 1) (Py.nearest 50 1)
                                (Py.nearest 40 1)
  = Py.Ok None.
Proof.
  apply (proj2 (proj1 (proj2 (solver_no_solution_iff 5 (Py.nearest 50 1)
                                (Py.nearest 50 1) (Py.nearest 40 1)
                                eq_refl eq_refl)))).
  left. reflexivity.
Defined.

(** C2 as stated fails: with [q1 = 10^400] and 100.0, 60.0, 80.0 neither
    check fires and yet the result is [None]. *)
Lemma solver_no_solution_counterexample :
  (0 < 10 ^ 400)%Z
  /\ Py.le (Py.nearest 80 1) (Py.nearest 60 1) = false
  /\ Py.ge (Py.nearest 80 1) (Py.nearest 100 1) = false
  /\ utils.calculate_shares_to_buy (10 ^ 400) (Py.nearest 100 1)
       (Py.nearest 60 1) (Py.nearest 80 1)
     = Py.Ok None.
Proof.
  split; [ reflexivity | ].
  split; [ reflexivity | ].
  split; [ reflexivity | ].
  vm_compute. reflexivity.
Qed.

(** The identity of the weighted average, in exact arithmetic. *)
Lemma average_identity (q1 : Z) (a b c x : Q) :
  (0 < q1)%Z -> b < c -> c < a ->
  x * (c - b) == inject_Z q1 * (a - c) ->
  Exact.average_after q1 a x b == c.
Proof.
  intros Hq Hbc Hca Hx. unfold Exact.average_after.
  assert (Hq' : 0 < inject_Z q1).
  { change 0 with (inject_Z 0). rewrite <- Zlt_Qlt. exact Hq. }
  assert (Hx0 : 0 < x).
  { assert (H : 0 < x * (c - b)).
    { rewrite Hx. apply Qmult_lt_0_compat; lra. }
    destruct (Qlt_le_dec 0 x) as [Hp | Hn]; [ exact Hp | ].
    exfalso. assert (x * (c - b) <= 0); [ | lra ].
    setoid_replace (x * (c - b)) with (- ((- x) * (c - b))) by ring.
    assert (0 <= (- x) * (c - b)); [ | lra ].
    apply Qmult_le_0_compat; lra. }
  setoid_replace (inject_Z q1 * a + x * b) with (c * (inject_Z q1 + x)).
  - field. lra.
  - lra.
Qed.

Lemma break_even_value_solves (q1 : Z) (a b c : Q) :
  b < c ->
  Exact.break_even_value q1 a b c * (c - b) == inject_Z q1 * (a - c).
Proof. intros H. unfold Exact.break_even_value. field. lra. Qed.

(** C3 (as amended).  For a positive [q1] that converts to a float and
    finite valid prices with [p2 < p_target < p1], the function returns
    the double-precision evaluation of the formula.  The exact value of
    the formula on the same prices moves the average cost exactly to the
    target; the returned float does so whenever it equals that exact
    value (no operation rounded). *)
Theorem solver_reaches_target_average (q1 : Z) (p1 p2 p_target q1f : Py.float)
        (a b c : Q) :
  Py.valid p1 -> Py.valid p2 -> Py.valid p_target ->
  (0 < q1)%Z ->
  Py.lt p2 p_target = true -> Py.lt p_target p1 = true ->
  Py.float_of_int q1 = Py.Ok q1f ->
  Py.exact p1 = Some a -> Py.exact p2 = Some b ->
  Py.exact p_target = Some c ->
  exists q2 : Py.float,
    utils.calculate_shares_to_buy q1 p1 p2 p_target = Py.Ok (Some q2)
    /\ q2 = Py.fdiv (Py.fmul q1f (Py.fsub p1 p_target))
                    (Py.fsub p_target p2)
    /\ Exact.average_after q1 a (Exact.break_even_value q1 a b c) b == c
    /\ forall x : Q,
         Py.exact q2 = Some x ->
         x == Exact.break_even_value q1 a b c ->
         Exact.average_after q1 a x b == c.
Proof.
  intros V1 V2 Vt Hq Hlo Hhi Eq Ea Eb Ec.
  pose proof (lt_exact _ _ _ _ V2 Vt Eb Ec Hlo) as Hbc.
  pose proof (lt_exact _ _ _ _ Vt V1 Ec Ea Hhi) as Hca.
  eexists. split; [ | split; [ reflexivity | split ] ].
  - apply solver_in_range; try assumption.
    + apply lt_not_le. exact Hlo.
    + apply lt_not_ge. exact Hhi.
  - apply average_identity; try assumption.
    apply break_even_value_solves. exact Hbc.
  - intros x _ Hx. apply average_identity; try assumption.
    rewrite Hx. apply break_even_value_solves. exact Hbc.
Qed.

Lemma solver_reaches_target_average_witness :
  exists q2 : Py.float,
    utils.calculate_shares_to_buy 10 (Py.nearest 100 1) (Py.nearest 60 1)
                                  (Py.nearest 80 1)
    = Py.Ok (Some q2)
    /\ Py.exact q2 = Some (inject_Z 5629499534213120 * 2 ^ (- 49))
    /\ Exact.average_after 10 (inject_Z 7036874417766400 * 2 ^ (- 46))
         (inject_Z 5629499534213120 * 2 ^ (- 49))
         (inject_Z 8444249301319680 * 2 ^ (- 47))
       == inject_Z 5629499534213120 * 2 ^ (- 46).
Proof.
  destruct (solver_reaches_target_average 10 (Py.nearest 100 1)
              (Py.nearest 60 1) (Py.nearest 80 1) (Py.nearest 10 1)
              (inject_Z 7036874417766400 * 2 ^ (- 46))
              (inject_Z 8444249301319680 * 2 ^ (- 47))
              (inject_Z 5629499534213120 * 2 ^ (- 46))
              eq_refl eq_refl eq_refl eq_refl eq_refl eq_refl eq_refl
              eq_refl eq_refl eq_refl)
    as (q2 & Hret & Hq2 & _ & Hx).
  exists q2. split; [ exact Hret | ].
  subst q2. split; [ reflexivity | ].
  apply Hx; reflexivity.
Defined.

(** C3 as stated fails: for [q1 = 1], [p1 = 6.0], [p2 = 1.0] and
    [p_target = 4.0] the returned float is 0.6666666666666666, and the
    average cost it gives differs from 4, both in exact arithmetic on the
    returned float and when the average is computed on floats. *)
Lemma solver_reaches_target_average_counterexample :
  exists (q2 : Py.float) (x : Q),
    utils.calculate_shares_to_buy 1 (Py.nearest 6 1) (Py.nearest 1 1)
                                  (Py.nearest 4 1)
    = Py.Ok (Some q2)
    /\ Py.exact q2 = Some x
    /\ ~ Exact.average_after 1 6 x 1 == 4
    /\ Py.fdiv (Py.fadd (Py.fmul (Py.of_int 1) (Py.nearest 6 1))
                        (Py.fmul q2 (Py.nearest 1 1)))
               (Py.fadd (Py.of_int 1) q2)
       <> Py.nearest 4 1.
Proof.
  eexists. eexists. split; [ vm_compute; reflexivity | ].
  split; [ reflexivity | ].
  split; [ vm_compute; discriminate | vm_compute; discriminate ].
Qed.

(** A float that is zero or below, or NaN, stays so through the
    multiplication by a positive float and the division by one. *)
Lemma quotient_not_positive (q1 : Z) (q1f d1 d2 : Py.float) :
  (q1 <= 0)%Z -> Py.float_of_int q1 = Py.Ok q1f ->
  Py.lt Py.zero d1 = true -> Py.lt Py.zero d2 = true ->
  Py.lt Py.zero (Py.fdiv (Py.fmul q1f d1) d2) = false.
Proof.
  intros Hq Eq H1 H2.
  destruct (float_of_int_cases _ _ Eq) as [ [_ ->] | (m & e & -> & Hn & _) ].
  - apply zero_or_nan_not_positive, fdiv_zero_or_nan_l, fmul_zero_l.
  - replace (q1 <? 0)%Z with true by (symmetry; apply Z.ltb_lt; lia).
    apply negative_not_positive.
    destruct (fmul_sign (S754_finite true m e) d1 true false eq_refl
                (positive_sign _ H1)) as [E | E].
    + rewrite E. left. destruct d2; reflexivity.
    + destruct (fdiv_sign _ d2 _ false E (positive_sign _ H2)) as [E' | E'];
        [ left; exact E' | right; exact E' ].
Qed.

(** C9 (as amended).  [calculate_shares_to_buy] checks no sign: for valid
    floats with [p2 < p_target < p1] and every [q1] that converts to a
    float, of whatever sign and whatever the sign of [p2], it returns the
    double-precision value of the formula, never [None]; for [q1 <= 0]
    that value is not above zero (a zero, a negative number or NaN). *)
Theorem solver_ignores_positivity (q1 : Z) (p1 p2 p_target q1f : Py.float) :
  Py.valid p1 -> Py.valid p2 -> Py.valid p_target ->
  Py.lt p2 p_target = true -> Py.lt p_target p1 = true ->
  Py.float_of_int q1 = Py.Ok q1f ->
  exists q2 : Py.float,
    utils.calculate_shares_to_buy q1 p1 p2 p_target = Py.Ok (Some q2)
    /\ q2 = Py.fdiv (Py.fmul q1f (Py.fsub p1 p_target))
                    (Py.fsub p_target p2)
    /\ ((q1 <= 0)%Z -> Py.lt Py.zero q2 = false).
Proof.
  intros V1 V2 Vt Hlo Hhi Eq.
  eexists. split; [ | split; [ reflexivity | ] ].
  - apply solver_in_range; try assumption.
    + apply lt_not_le. exact Hlo.
    + apply lt_not_ge. exact Hhi.
  - intros Hq. apply quotient_not_positive with (q1 := q1); try assumption.
    + apply fsub_gt_positive; assumption.
    + apply fsub_gt_positive; assumption.
Qed.

Lemma solver_ignores_positivity_witness :
  exists q2 : Py.float,
    utils.calculate_shares_to_buy (-10) (Py.nearest 100 1)
      (Py.nearest (-60) 1) (Py.nearest 80 1)
    = Py.Ok (Some q2)
    /\ Py.lt Py.zero q2 = false.
Proof.
  destruct (solver_ignores_positivity (-10) (Py.nearest 100 1)
              (Py.nearest (-60) 1) (Py.nearest 80 1) (Py.nearest (-10) 1)
              eq_refl eq_refl eq_refl eq_refl eq_refl eq_refl)
    as (q2 & Hret & _ & Hsign).
  exists q2. split; [ exact Hret | ]. apply Hsign. lia.
Defined.

(** C9 as stated fails: with [q1 = -10^400] and 100.0, 60.0, 80.0 the
    function returns [None], not the value of the formula. *)
Lemma solver_ignores_positivity_counterexample :
  Py.lt (Py.nearest 60 1) (Py.nearest 80 1) = true
  /\ Py.lt (Py.nearest 80 1) (Py.nearest 100 1) = true
  /\ utils.calculate_shares_to_buy (- 10 ^ 400) (Py.nearest 100 1)
       (Py.nearest 60 1) (Py.nearest 80 1)
     = Py.Ok None.
Proof.
  split; [ reflexivity | ].
  split; [ reflexivity | ].
  vm_compute. reflexivity.
Qed.

Lemma ceil_positive (x : Py.float) (n : Z) :
  Py.lt Py.zero x = true -> Py.ceil x = Py.Ok n -> (1 <= n)%Z.
Proof.
  intros H E. destruct (positive_cases _ H) as [-> | (m & e & ->)];
    [ discriminate E | ].
  unfold Py.ceil in E. cbn [cond_Zopp] in E.
  destruct e as [ | p | p ]; injection E as <-.
  - change (1 <= Zpos m * 1)%Z. lia.
  - change (1 <= Zpos m * 2 ^ Zpos p)%Z.
    assert (0 < 2 ^ Zpos p)%Z by (apply Z.pow_pos_nonneg; lia). nia.
  - change (1 <= - (- Zpos m / 2 ^ Zpos p))%Z.
    assert (Hp : (0 < 2 ^ Zpos p)%Z) by (apply Z.pow_pos_nonneg; lia).
    assert ((- Zpos m) / 2 ^ Zpos p < 0)%Z; [ | lia ].
    apply Z.div_lt_upper_bound; lia.
Qed.

(** C10 (as amended).  For a positive [q1] that converts to a float and
    valid floats with [0 < p2 < p_target < p1], the function returns a
    float that is strictly above zero (possibly infinite), so rounding it
    up with [math.ceil], where that is defined, gives at least one whole
    share. *)
Theorem solver_result_positive (q1 : Z) (p1 p2 p_target q1f : Py.float) :
  Py.valid p1 -> Py.valid p2 -> Py.valid p_target ->
  (0 < q1)%Z -> Py.float_of_int q1 = Py.Ok q1f ->
  Py.lt Py.zero p2 = true ->
  Py.lt p2 p_target = true -> Py.lt p_target p1 = true ->
  exists q2 : Py.float,
    utils.calculate_shares_to_buy q1 p1 p2 p_target = Py.Ok (Some q2)
    /\ Py.lt Py.zero q2 = true
    /\ forall n : Z, Py.ceil q2 = Py.Ok n -> (1 <= n)%Z.
Proof.
  intros V1 V2 Vt Hq Eq H2 Hlo Hhi.
  assert (Hpos : Py.lt Py.zero (break_even_double q1f p1 p2 p_target) = true)
    by (apply break_even_positive with (q1 := q1); assumption).
  eexists. split; [ | split; [ exact Hpos | ] ].
  - apply solver_in_range; try assumption.
    + apply lt_not_le. exact Hlo.
    + apply lt_not_ge. exact Hhi.
  - intros n. apply ceil_positive. exact Hpos.
Qed.

Lemma solver_result_positive_witness :
  exists q2 : Py.float,
    utils.calculate_shares_to_buy 1 (Py.nearest 6 1) (Py.nearest 1 1)
                                  (Py.nearest 4 1)
    = Py.Ok (Some q2)
    /\ Py.lt Py.zero q2 = true
    /\ Py.ceil q2 = Py.Ok 1%Z.
Proof.
  destruct (solver_result_positive 1 (Py.nearest 6 1) (Py.nearest 1 1)
              (Py.nearest 4 1) (Py.nearest 1 1)
              eq_refl eq_refl eq_refl eq_refl eq_refl eq_refl eq_refl
              eq_refl)
    as (q2 & Hret & Hpos & _).
  exists q2. split; [ exact Hret | ]. split; [ exact Hpos | ].
  assert (E : utils.calculate_shares_to_buy 1 (Py.nearest 6 1)
                (Py.nearest 1 1) (Py.nearest 4 1)
              = Py.Ok (Some (S754_finite false 6004799503160661 (-53))))
    by (vm_compute; reflexivity).
  rewrite E in Hret. inversion Hret. reflexivity.
Defined.

(** C10 as stated fails: with [q1 = 10^400] and 100.0, 60.0, 80.0 the
    function returns no number at all. *)
Lemma solver_result_positive_counterexample :
  (0 < 10 ^ 400)%Z
  /\ Py.lt Py.zero (Py.nearest 60 1) = true
  /\ Py.lt (Py.nearest 60 1) (Py.nearest 80 1) = true
  /\ Py.lt (Py.nearest 80 1) (Py.nearest 100 1) = true
  /\ utils.calculate_shares_to_buy (10 ^ 400) (Py.nearest 100 1)
       (Py.nearest 60 1) (Py.nearest 80 1)
     = Py.Ok None.
Proof.
  split; [ reflexivity | ].
  split; [ reflexivity | ].
  split; [ reflexivity | ].
  split; [ reflexivity | ].
  vm_compute. reflexivity.
Qed.

(** ** The break-even solver, statement by statement *)

Section Machine.

Import break_even_machine.

Variables (a_q1 : Z) (a_p1 a_p2 a_target : Py.float).
Hypothesis valid_p2 : Py.valid a_p2.
Hypothesis valid_target : Py.valid a_target.

Lemma invariant_start :
  solver_invariant a_q1 a_p1 a_p2 a_target (init a_q1 a_p1 a_p2 a_target).
Proof. unfold solver_invariant; cbn. tauto. Qed.

Lemma invariant_step (s s' : state) :
  solver_invariant a_q1 a_p1 a_p2 a_target s ->
  step s = Some s' ->
  solver_invariant a_q1 a_p1 a_p2 a_target s'.
Proof.
  destruct s as [l q1 p1 p2 pt n d q x out].
  unfold solver_invariant, step; cbn -[Py.int_mul_float Py.truediv].
  intros (-> & -> & -> & -> & Hpc).
  destruct l; cbn -[Py.int_mul_float Py.truediv]; intros Hstep.
  - (* L62 *)
    destruct Hpc as [-> ->].
    destruct (Py.le a_target a_p2) eqn:E; inversion Hstep; subst; cbn;
      tauto.
  - (* L65 *)
    destruct Hpc as (Hlo & -> & ->).
    inversion Hstep; subst; cbn. repeat split; trivial.
    + apply solver_target_too_low; exact Hlo.
    + left. repeat split; trivial. left. exact Hlo.
  - (* L67 *)
    destruct Hpc as (Hlo & -> & ->).
    destruct (Py.ge a_target a_p1) eqn:E; inversion Hstep; subst; cbn;
      tauto.
  - (* L70 *)
    destruct Hpc as (Hlo & Hhi & -> & ->).
    inversion Hstep; subst; cbn. repeat split; trivial.
    + apply solver_target_too_high; exact Hhi.
    + left. repeat split; trivial. right; left. exact Hhi.
  - (* L74 *)
    destruct Hpc as ((Hlo & Hhi) & -> & ->).
    unfold Py.int_mul_float in Hstep.
    destruct (Py.float_of_int a_q1) as [q1f | exn] eqn:Eq;
      cbn in Hstep; inversion Hstep; subst; cbn.
    + repeat split; trivial. exists q1f. split; reflexivity.
    + rewrite (float_of_int_raises _ _ Eq). repeat split; trivial.
  - (* L75 *)
    destruct Hpc as ((Hlo & Hhi) & (-> & ->) & (q1f & Eq & ->)).
    inversion Hstep; subst; cbn. repeat split; trivial.
    exists q1f. repeat split; trivial.
  - (* L77 *)
    destruct Hpc as ((Hlo & Hhi) & (-> & ->) & (q1f & Eq & -> & ->)).
    unfold Py.truediv in Hstep.
    rewrite (fsub_gt_not_zero _ _ valid_target valid_p2 Hlo) in Hstep.
    inversion Hstep; subst; cbn. repeat split; trivial.
    exists q1f. split; [ exact Eq | reflexivity ].
  - (* L78 *)
    destruct Hpc as ((Hlo & Hhi) & (-> & ->) & (q1f & Eq & ->)).
    inversion Hstep; subst; cbn. repeat split; trivial.
    + apply solver_in_range; assumption.
    + left. repeat split; trivial. right; right. exists q1f. exact Eq.
  - (* L81 *)
    destruct Hpc as ((Hlo & Hhi) & Eq & -> & ->).
    inversion Hstep; subst; cbn. repeat split; trivial.
  - (* L82 *)
    destruct Hpc as ((Hlo & Hhi) & Eq & -> & ->).
    inversion Hstep; subst; cbn. repeat split; trivial.
    + eapply solver_overflow; eassumption.
    + right. repeat split; trivial.
  - discriminate Hstep.
Qed.

Lemma invariant_reachable (s : state) :
  reachable (init a_q1 a_p1 a_p2 a_target) s ->
  solver_invariant a_q1 a_p1 a_p2 a_target s.
Proof.
  induction 1 as [ | s s' _ IH Hstep ].
  - apply invariant_start.
  - exact (invariant_step s s' IH Hstep).
Qed.

Lemma run_reachable (fuel : nat) (s : state) :
  reachable (init a_q1 a_p1 a_p2 a_target) s ->
  reachable (init a_q1 a_p1 a_p2 a_target) (run fuel s).
Proof.
  revert s. induction fuel as [ | fuel IH ]; intros s Hs; cbn.
  - exact Hs.
  - destruct (step s) as [ s' | ] eqn:E; [ | exact Hs ].
    apply IH. exact (reach_step (init a_q1 a_p1 a_p2 a_target) s s' Hs E).
Qed.

(** Seven statements are enough, and the machine then holds what the
    function returns. *)
Lemma machine_computes_solver :
  exists v,
    at_pc (run 7 (init a_q1 a_p1 a_p2 a_target)) = Returned v
    /\ utils.calculate_shares_to_buy a_q1 a_p1 a_p2 a_target = Py.Ok v.
Proof.
  pose proof (invariant_reachable _
                (run_reachable 7 (init a_q1 a_p1 a_p2 a_target)
                               (reach_start _)))
    as Hinv.
  assert (Hend : exists v,
             at_pc (run 7 (init a_q1 a_p1 a_p2 a_target)) = Returned v).
  { unfold init. cbn -[Py.le Py.ge Py.truediv Py.int_mul_float].
    destruct (Py.le a_target a_p2);
      cbn -[Py.le Py.ge Py.truediv Py.int_mul_float]; [ eauto | ].
    destruct (Py.ge a_target a_p1);
      cbn -[Py.le Py.ge Py.truediv Py.int_mul_float]; [ eauto | ].
    destruct (Py.int_mul_float _ _);
      cbn -[Py.le Py.ge Py.truediv Py.int_mul_float]; [ | eauto ].
    destruct (Py.truediv _ _); cbn; eauto. }
  destruct Hend as [v Hv]. exists v. split; [ exact Hv | ].
  destruct Hinv as (_ & _ & _ & _ & Hpc). rewrite Hv in Hpc.
  exact (proj1 Hpc).
Qed.

End Machine.

(** C4 (as amended).  Whenever execution reaches the division, both
    checks were made and were false, the denominator is
    [p_target - p2] and is not zero, so the division raises nothing; it
    is strictly positive when neither [p_target] nor [p2] is NaN (and NaN
    otherwise).  [ZeroDivisionError] is never raised.  The handler is
    entered only from line 74, with the [OverflowError] of a [q1] too
    large for a float. *)
Theorem division_is_guarded (q1 : Z) (p1 p2 p_target : Py.float)
        (s : break_even_machine.state) :
  Py.valid p2 -> Py.valid p_target ->
  break_even_machine.reachable (break_even_machine.init q1 p1 p2 p_target) s ->
  (break_even_machine.at_pc s = break_even_machine.L77_division ->
   Py.le p_target p2 = false
   /\ Py.ge p_target p1 = false
   /\ break_even_machine.denominator s = Some (Py.fsub p_target p2)
   /\ Py.is_zero (Py.fsub p_target p2) = false
   /\ (Py.is_nan p_target = false -> Py.is_nan p2 = false ->
       Py.lt Py.zero (Py.fsub p_target p2) = true)
   /\ exists n : Py.float,
       break_even_machine.numerator s = Some n
       /\ Py.truediv n (Py.fsub p_target p2)
          = Py.Ok (Py.fdiv n (Py.fsub p_target p2)))
  /\ break_even_machine.e s <> Some Py.ZeroDivisionError
  /\ (break_even_machine.at_pc s = break_even_machine.L81_print
      \/ break_even_machine.at_pc s = break_even_machine.L82_return_None ->
      break_even_machine.e s = Some Py.OverflowError
      /\ ~ converts q1
      /\ Py.le p_target p2 = false /\ Py.ge p_target p1 = false).
Proof.
  intros V2 Vt Hreach.
  apply (invariant_reachable q1 p1 p2 p_target V2 Vt) in Hreach.
  destruct Hreach as (_ & _ & _ & _ & Hpc).
  split; [ | split ].
  - intros Hat. rewrite Hat in Hpc.
    destruct Hpc as ((Hlo & Hhi) & _ & (q1f & Eq & Hn & Hd)).
    pose proof (fsub_gt_not_zero _ _ Vt V2 Hlo) as Hz.
    split; [ exact Hlo | ]. split; [ exact Hhi | ].
    split; [ exact Hd | ]. split; [ exact Hz | ].
    split.
    + intros Nt N2. destruct (le_false_cases _ _ Hlo) as [Hc | [Hn' | Hn'] ];
        try congruence.
      destruct (fsub_gt _ _ Vt V2 Hc) as [E | (m & e & E)]; rewrite E;
        reflexivity.
    + eexists. split; [ exact Hn | ].
      unfold Py.truediv. rewrite Hz. reflexivity.
  - destruct (break_even_machine.at_pc s); cbn in Hpc;
      try (destruct Hpc as (_ & _ & _ & ->); discriminate);
      try (destruct Hpc as (_ & _ & ->); discriminate);
      try (destruct Hpc as (_ & (_ & ->) & _); discriminate);
      try (destruct Hpc as (_ & ->); discriminate).
    destruct Hpc as (_ & [ ((_ & ->) & _) | (_ & _ & _ & _ & ->) ]);
      discriminate.
  - intros [Hat | Hat]; rewrite Hat in Hpc;
      destruct Hpc as ((Hlo & Hhi) & Eq & _ & He);
      (split; [ exact He | ]);
      (split; [ intros Hc; exact (converts_not_raise _ _ Hc Eq) | ]);
      split; assumption.
Qed.

Lemma division_is_guarded_witness :
  let s := break_even_machine.run 4
             (break_even_machine.init 10 (Py.nearest 100 1)
                (Py.nearest 60 1) (Py.nearest 80 1)) in
  break_even_machine.at_pc s = break_even_machine.L77_division
  /\ break_even_machine.denominator s = Some (Py.nearest 20 1)
  /\ Py.lt Py.zero (Py.nearest 20 1) = true.
Proof.
  cbv zeta. split; [ reflexivity | ].
  destruct (division_is_guarded 10 (Py.nearest 100 1) (Py.nearest 60 1)
              (Py.nearest 80 1)
              (break_even_machine.run 4
                 (break_even_machine.init 10 (Py.nearest 100 1)
                    (Py.nearest 60 1) (Py.nearest 80 1)))
              eq_refl eq_refl)
    as [Hdiv _].
  - apply run_reachable. apply break_even_machine.reach_start.
  - destruct (Hdiv eq_refl) as (_ & _ & Hd & _ & Hpos & _).
    split; [ exact Hd | ]. exact (Hpos eq_refl eq_refl).
Defined.

(** C4 as stated fails: with the target NaN (which [float()] accepts)
    both checks are false and execution reaches the division with a
    denominator that is NaN, not a strictly positive number; and with
    [q1 = 10^400] the handler is entered. *)
Lemma division_is_guarded_counterexample :
  (let s := break_even_machine.run 4
              (break_even_machine.init 10 (Py.nearest 100 1)
                 (Py.nearest 60 1) S754_nan) in
   break_even_machine.at_pc s = break_even_machine.L77_division
   /\ break_even_machine.denominator s = Some S754_nan
   /\ Py.lt Py.zero S754_nan = false)
  /\ (let s := break_even_machine.run 3
                 (break_even_machine.init (10 ^ 400) (Py.nearest 100 1)
                    (Py.nearest 60 1) (Py.nearest 80 1)) in
      break_even_machine.at_pc s = break_even_machine.L81_print
      /\ break_even_machine.e s = Some Py.OverflowError).
Proof.
  cbv zeta. split; [ split; [ | split ]; reflexivity | ].
  split; vm_compute; reflexivity.
Qed.

(** X10.  [calculate_shares_to_buy] prints only from its handler, and the
    handler is entered only for a quantity too large for a float: when
    the call is over, the output holds the one line of the handler (and
    the result is [None]) if both checks passed and [q1] does not
    convert, and nothing otherwise. *)
Theorem solver_prints_on_overflow_only (q1 : Z) (p1 p2 p_target : Py.float)
        (s : break_even_machine.state) (v : option Py.float) :
  Py.valid p2 -> Py.valid p_target ->
  break_even_machine.reachable (break_even_machine.init q1 p1 p2 p_target) s ->
  break_even_machine.at_pc s = break_even_machine.Returned v ->
  (~ converts q1 /\ Py.le p_target p2 = false /\ Py.ge p_target p1 = false ->
   break_even_machine.stdout s
   = [break_even_machine.Error_in_calculation Py.OverflowError]
   /\ v = None)
  /\ (converts q1 \/ Py.le p_target p2 = true \/ Py.ge p_target p1 = true ->
      break_even_machine.stdout s = []).
Proof.
  intros V2 Vt Hreach Hat.
  apply (invariant_reachable q1 p1 p2 p_target V2 Vt) in Hreach.
  destruct Hreach as (_ & _ & _ & _ & Hpc). rewrite Hat in Hpc.
  destruct Hpc as (_ & [ ((Hout & _) & Hwhy)
                       | ((Hlo & Hhi) & Hov & Hv & Hout & _) ]).
  - split; [ | intros _; exact Hout ].
    intros (Hnc & Hlo & Hhi).
    destruct Hwhy as [H | [H | H] ]; [ congruence | congruence | contradiction ].
  - split; [ intros _; split; assumption | ].
    intros [H | [H | H] ]; [ | congruence | congruence ].
    exfalso. exact (converts_not_raise _ _ H Hov).
Qed.

Lemma solver_prints_on_overflow_only_witness :
  break_even_machine.stdout
    (break_even_machine.run 7
       (break_even_machine.init (10 ^ 400) (Py.nearest 100 1)
          (Py.nearest 60 1) (Py.nearest 80 1)))
  = [break_even_machine.Error_in_calculation Py.OverflowError].
Proof.
  destruct (solver_prints_on_overflow_only (10 ^ 400) (Py.nearest 100 1)
              (Py.nearest 60 1) (Py.nearest 80 1)
              (break_even_machine.run 7
                 (break_even_machine.init (10 ^ 400) (Py.nearest 100 1)
                    (Py.nearest 60 1) (Py.nearest 80 1)))
              None eq_refl eq_refl)
    as [Hprint _].
  - apply run_reachable. apply break_even_machine.reach_start.
  - vm_compute. reflexivity.
  - apply Hprint. split; [ | split; reflexivity ].
    intros [x Hx]. vm_compute in Hx. discriminate Hx.
Defined.

(* ------------------------------------------------------------------ *)
(** ** The portfolio aggregator *)

Section Aggregator.

Import utils.

Lemma converts_of_int (n : Z) :
  converts n -> Py.float_of_int n = Py.Ok (Py.of_int n).
Proof.
  intros [x H]. rewrite H. f_equal. apply (float_of_int_of_int _ _ H).
Qed.

Lemma stock_data_of_converts (stock : Stock.t) :
  converts (Stock.quantity stock) ->
  stock_data_of stock = Py.Ok (stock_data stock).
Proof.
  intros H. unfold stock_data_of, Py.float_mul_int.
  rewrite (converts_of_int _ H). reflexivity.
Qed.

Lemma stock_data_of_overflow (stock : Stock.t) :
  ~ converts (Stock.quantity stock) ->
  stock_data_of stock = Py.Raise Py.OverflowError.
Proof.
  intros H. unfold stock_data_of, Py.float_mul_int.
  rewrite (not_converts_raises _ H). reflexivity.
Qed.

Lemma add_addable (a : Py.num) (x : Py.float) :
  addable a -> Py.add a (Py.Float x) = Py.Ok (add_float a x).
Proof.
  destruct a as [n | y]; cbn; intros H; [ | reflexivity ].
  rewrite (converts_of_int _ H). reflexivity.
Qed.

Lemma add_float_addable (a : Py.num) (x : Py.float) : addable (add_float a x).
Proof. destruct a; exact I. Qed.

Lemma loop_body_converts (st : loop_state) (stock : Stock.t) :
  converts (Stock.quantity stock) ->
  addable (total_investment st) -> addable (total_current_value st) ->
  loop_body st stock
  = Py.Ok {| portfolio := portfolio st ++ [stock_data stock];
             total_investment :=
               add_float (total_investment st) (invested stock);
             total_current_value :=
               add_float (total_current_value st) (valued stock) |}.
Proof.
  intros Hq Hi Hv. unfold loop_body, Py.int_mul_float.
  rewrite (stock_data_of_converts _ Hq), (converts_of_int _ Hq).
  cbn [Py.bind]. rewrite (add_addable _ _ Hi). cbn [Py.bind].
  rewrite (add_addable _ _ Hv). reflexivity.
Qed.

Lemma loop_body_overflow (st : loop_state) (stock : Stock.t) :
  ~ converts (Stock.quantity stock) ->
  loop_body st stock = Py.Raise Py.OverflowError.
Proof.
  intros Hq. unfold loop_body.
  rewrite (stock_data_of_overflow _ Hq). reflexivity.
Qed.

(** The loop over stocks whose quantities convert: one dictionary per
    stock, in order, and the two totals added up in order. *)
Lemma for_each_converts (l : list Stock.t) (st : loop_state) :
  all_convert l ->
  addable (total_investment st) -> addable (total_current_value st) ->
  for_each l st
  = Py.Ok {| portfolio := portfolio st ++ map stock_data l;
             total_investment :=
               fold_left add_float (map invested l) (total_investment st);
             total_current_value :=
               fold_left add_float (map valued l) (total_current_value st) |}.
Proof.
  revert st. induction l as [ | stock l IH ]; intros st Hall Hi Hv;
    cbn [for_each map fold_left].
  - rewrite app_nil_r. destruct st; reflexivity.
  - inversion Hall as [ | ? ? Hq Hrest ]; subst.
    rewrite (loop_body_converts _ _ Hq Hi Hv). cbn [Py.bind].
    rewrite IH; try assumption; cbn [portfolio total_investment
                                     total_current_value];
      try apply add_float_addable.
    rewrite <- app_assoc. reflexivity.
Qed.

(** A quantity too large for a float stops the loop. *)
Lemma for_each_overflow (l : list Stock.t) (st : loop_state) :
  ~ all_convert l ->
  addable (total_investment st) -> addable (total_current_value st) ->
  for_each l st = Py.Raise Py.OverflowError.
Proof.
  revert st. induction l as [ | stock l IH ]; intros st Hall Hi Hv;
    cbn [for_each].
  - exfalso. apply Hall. constructor.
  - destruct (Py.float_of_int (Stock.quantity stock)) as [x | x] eqn:E.
    + assert (Hq : converts (Stock.quantity stock)) by (exists x; exact E).
      rewrite (loop_body_converts _ _ Hq Hi Hv). cbn [Py.bind].
      apply IH; cbn [total_investment total_current_value];
        try apply add_float_addable.
      intros Hrest. apply Hall. constructor; assumption.
    + rewrite loop_body_overflow; [ reflexivity | ].
      intros Hq. exact (converts_not_raise _ _ Hq E).
Qed.

Lemma fold_add_float (l : list Py.float) (a : Py.float) :
  fold_left add_float l (Py.Float a) = Py.Float (fold_left Py.fadd l a).
Proof.
  revert a. induction l as [ | x l IH ]; intros a; cbn [fold_left add_float].
  - reflexivity.
  - apply IH.
Qed.

(** A total that started at the int [0] is a float as soon as one float
    was added. *)
Lemma running_total_float (x : Py.float) (l : list Py.float) :
  fold_left add_float (x :: l) (Py.Int 0) = Py.Float (float_sum (x :: l)).
Proof. cbn [fold_left add_float]. apply fold_add_float. Qed.

Lemma zero_converts : converts 0.
Proof. exists Py.zero. reflexivity. Qed.

(** What [process_portfolio_data] returns for stocks whose quantities
    convert. *)
Lemma process_converts (all_stocks : list Stock.t) :
  all_convert all_stocks ->
  process_portfolio_data all_stocks
  = Py.Ok
      (map stock_data all_stocks,
       match all_stocks with
       | [] =>
           {| Summary.total_investment := Py.Int 0;
              Summary.total_current_value := Py.Int 0;
              Summary.total_profit_loss := Py.Int 0 |}
       | _ :: _ =>
           {| Summary.total_investment :=
                Py.Float (Py.round (float_sum (map invested all_stocks)) 2);
              Summary.total_current_value :=
                Py.Float (Py.round (float_sum (map valued all_stocks)) 2);
              Summary.total_profit_loss :=
                Py.Float
                  (Py.round
                     (Py.fsub (float_sum (map valued all_stocks))
                              (float_sum (map invested all_stocks))) 2) |}
       end).
Proof.
  intros Hall. unfold process_portfolio_data.
  rewrite (for_each_converts all_stocks loop_init Hall);
    try exact zero_converts.
  cbn [Py.bind loop_init portfolio total_investment total_current_value
       app].
  destruct all_stocks as [ | stock l ].
  - reflexivity.
  - cbn [map]. rewrite !running_total_float. reflexivity.
Qed.

Lemma process_overflow (all_stocks : list Stock.t) :
  ~ all_convert all_stocks ->
  process_portfolio_data all_stocks = Py.Raise Py.OverflowError.
Proof.
  intros Hall. unfold process_portfolio_data.
  rewrite (for_each_overflow all_stocks loop_init Hall);
    try exact zero_converts.
  reflexivity.
Qed.

Lemma all_convert_dec (l : list Stock.t) :
  all_convert l \/ ~ all_convert l.
Proof.
  unfold all_convert. induction l as [ | s l IH ].
  - left. constructor.
  - destruct (Py.float_of_int (Stock.quantity s)) as [x | x] eqn:E.
    + destruct IH as [IH | IH].
      * left. constructor; [ exists x; exact E | exact IH ].
      * right. intros H. inversion H; subst. contradiction.
    + right. intros H. inversion H as [ | ? ? Hq _ ]; subst.
      exact (converts_not_raise _ _ Hq E).
Qed.

(** The function returns exactly when every quantity converts. *)
Lemma process_returns_iff (all_stocks : list Stock.t) :
  (exists r, process_portfolio_data all_stocks = Py.Ok r)
  <-> all_convert all_stocks.
Proof.
  split.
  - intros [r Hr].
    destruct (all_convert_dec all_stocks) as [H | H]; [ exact H | ].
    rewrite (process_overflow _ H) in Hr. discriminate Hr.
  - intros H. eexists. apply process_converts. exact H.
Qed.

End Aggregator.

(** C5 (as amended).  When every quantity converts to a float (every
    64-bit quantity does), the function returns, and for every position
    of the input the dictionary at the same place of the output has
    profit_loss equal to [round(x, 2)] of the double-precision value [x]
    of [(current_price - buy_price) * quantity], the difference and the
    product each rounded to a float. *)
Theorem position_profit_loss (all_stocks : list Stock.t) (i : nat)
        (stock : Stock.t) :
  all_convert all_stocks ->
  nth_error all_stocks i = Some stock ->
  exists (portfolio : list StockData.t) (summary : Summary.t)
         (stock_data : StockData.t),
    utils.process_portfolio_data all_stocks = Py.Ok (portfolio, summary)
    /\ nth_error portfolio i = Some stock_data
    /\ StockData.profit_loss stock_data
       = Py.round
           (Py.fmul (Py.fsub (Stock.current_price stock)
                             (Stock.buy_price stock))
                    (Py.of_int (Stock.quantity stock))) 2.
Proof.
  intros Hall Hi.
  eexists _, _, (stock_data stock).
  split; [ apply process_converts; exact Hall | ].
  split; [ apply map_nth_error; exact Hi | reflexivity ].
Qed.

Lemma position_profit_loss_witness :
  exists (portfolio : list StockData.t) (summary : Summary.t)
         (stock_data : StockData.t),
    utils.process_portfolio_data
      [Stock.mk 1 "ACME" 10 (Py.nearest 100 1) (Py.nearest 120 1) 7;
       Stock.mk 2 "INIT" 3 (Py.nearest 5 2) (Py.nearest 2 1) 7]
    = Py.Ok (portfolio, summary)
    /\ nth_error portfolio 1 = Some stock_data
    /\ StockData.profit_loss stock_data = Py.nearest (- 3) 2.
Proof.
  destruct (position_profit_loss
              [Stock.mk 1 "ACME" 10 (Py.nearest 100 1) (Py.nearest 120 1) 7;
               Stock.mk 2 "INIT" 3 (Py.nearest 5 2) (Py.nearest 2 1) 7]
              1 (Stock.mk 2 "INIT" 3 (Py.nearest 5 2) (Py.nearest 2 1) 7))
    as (portfolio & summary & d & Hret & Hnth & Hpl).
  - repeat constructor; eexists; reflexivity.
  - reflexivity.
  - exists portfolio, summary, d. split; [ exact Hret | ].
    split; [ exact Hnth | ]. rewrite Hpl. reflexivity.
Defined.

(** C5 as stated fails in exact arithmetic: for 5 shares bought at 1.0
    and now at 1.401 the product of the stored prices is just above
    2.005 and rounds to 2.01, while the function returns 2.0, the
    rounding of the float product 2.00499999999999989. *)
Lemma position_profit_loss_counterexample :
  exists (stock_data : StockData.t) (summary : Summary.t) (bp cp x : Q),
    utils.process_portfolio_data
      [Stock.mk 1 "ACME" 5 (Py.nearest 1 1) (Py.nearest 1401 1000) 7]
    = Py.Ok ([stock_data], summary)
    /\ Py.exact (Py.nearest 1 1) = Some bp
    /\ Py.exact (Py.nearest 1401 1000) = Some cp
    /\ Exact.round2 ((cp - bp) * 5) == 201 # 100
    /\ StockData.profit_loss stock_data = Py.nearest 2 1
    /\ StockData.profit_loss stock_data <> Py.nearest 201 100
    /\ Py.exact (StockData.profit_loss stock_data) = Some x
    /\ ~ x == 201 # 100.
Proof.
  eexists _, _, _, _, _.
  split; [ vm_compute; reflexivity | ].
  split; [ reflexivity | ]. split; [ reflexivity | ].
  split; [ vm_compute; reflexivity | ].
  split; [ reflexivity | ].
  split; [ vm_compute; discriminate | ].
  split; [ reflexivity | vm_compute; discriminate ].
Qed.

(** C6 (as amended).  When every quantity converts to a float, for a
    non-empty sequence the summary holds: total_investment, the float sum
    of the products [quantity * buy_price] added in input order;
    total_current_value, the float sum of [quantity * current_price];
    total_profit_loss, the float difference of these two unrounded sums;
    each passed through [round(x, 2)].  Every product, addition and
    subtraction is rounded to a float. *)
Theorem portfolio_totals (all_stocks : list Stock.t) :
  all_convert all_stocks ->
  all_stocks <> [] ->
  let investment :=
    float_sum
      (map (fun s => Py.fmul (Py.of_int (Stock.quantity s))
                             (Stock.buy_price s)) all_stocks) in
  let value :=
    float_sum
      (map (fun s => Py.fmul (Py.of_int (Stock.quantity s))
                             (Stock.current_price s)) all_stocks) in
  exists (portfolio : list StockData.t) (summary : Summary.t),
    utils.process_portfolio_data all_stocks = Py.Ok (portfolio, summary)
    /\ Summary.total_investment summary = Py.Float (Py.round investment 2)
    /\ Summary.total_current_value summary = Py.Float (Py.round value 2)
    /\ Summary.total_profit_loss summary
       = Py.Float (Py.round (Py.fsub value investment) 2).
Proof.
  intros Hall Hne. cbv zeta.
  rewrite (process_converts _ Hall).
  destruct all_stocks as [ | s l ]; [ congruence | ].
  eexists _, _. split; [ reflexivity | ].
  repeat split.
Qed.

Lemma portfolio_totals_witness :
  exists (portfolio : list StockData.t) (summary : Summary.t),
    utils.process_portfolio_data
      [Stock.mk 1 "ACME" 10 (Py.nearest 100 1) (Py.nearest 120 1) 7]
    = Py.Ok (portfolio, summary)
    /\ Summary.total_investment summary = Py.Float (Py.nearest 1000 1)
    /\ Summary.total_current_value summary = Py.Float (Py.nearest 1200 1)
    /\ Summary.total_profit_loss summary = Py.Float (Py.nearest 200 1).
Proof.
  destruct (portfolio_totals
              [Stock.mk 1 "ACME" 10 (Py.nearest 100 1) (Py.nearest 120 1) 7])
    as (portfolio & summary & Hret & Hi & Hv & Hp).
  - repeat constructor; eexists; reflexivity.
  - discriminate.
  - exists portfolio, summary. split; [ exact Hret | ].
    rewrite Hi, Hv, Hp. repeat split.
Defined.

(** C6 as stated fails in exact arithmetic: for 5 shares bought at 1.0
    and now at 1.401 the sum of quantity * current_price on the stored
    price is just above 7.005 and rounds to 7.01, while the function
    returns 7.0 (and 2.0 where the difference rounds to 2.01). *)
Lemma portfolio_totals_counterexample :
  exists (portfolio : list StockData.t) (summary : Summary.t) (bp cp : Q),
    utils.process_portfolio_data
      [Stock.mk 1 "ACME" 5 (Py.nearest 1 1) (Py.nearest 1401 1000) 7]
    = Py.Ok (portfolio, summary)
    /\ Py.exact (Py.nearest 1 1) = Some bp
    /\ Py.exact (Py.nearest 1401 1000) = Some cp
    /\ Exact.round2 (5 * cp) == 701 # 100
    /\ Exact.round2 (5 * cp - 5 * bp) == 201 # 100
    /\ Summary.total_current_value summary = Py.Float (Py.nearest 7 1)
    /\ Summary.total_profit_loss summary = Py.Float (Py.nearest 2 1)
    /\ Py.nearest 7 1 <> Py.nearest 701 100
    /\ Py.nearest 2 1 <> Py.nearest 201 100.
Proof.
  eexists _, _, _, _.
  split; [ vm_compute; reflexivity | ].
  split; [ reflexivity | ]. split; [ reflexivity | ].
  split; [ vm_compute; reflexivity | ].
  split; [ vm_compute; reflexivity | ].
  split; [ reflexivity | ]. split; [ reflexivity | ].
  split; vm_compute; discriminate.
Qed.

(** X1.  An empty portfolio gives an empty list and three zero totals,
    the int [0] that [round] leaves as it is. *)
Theorem aggregate_empty :
  utils.process_portfolio_data []
  = Py.Ok ([], {| Summary.total_investment := Py.Int 0;
                  Summary.total_current_value := Py.Int 0;
                  Summary.total_profit_loss := Py.Int 0 |}).
Proof. reflexivity. Qed.

(** ** [round(x, 2)] and the decimal it stands for *)







(* ------------------------------------------------------------------ *)
(** ** Recording a purchase *)

Section Purchase.

Import app.

Lemma query_first_found (user : Z) (name : string) (rows : list Stock.t)
      (i : nat) (r : Stock.t) :
  query_first user name rows = Some (i, r) ->
  nth_error rows i = Some r /\ owned_by_named user name r = true.
Proof.
  revert i. induction rows as [ | s rows IH ]; intros i H; cbn in H.
  - discriminate H.
  - destruct (owned_by_named user name s) eqn:E.
    + inversion H; subst. cbn. auto.
    + destruct (query_first user name rows) as [ [j r'] | ];
        [ | discriminate H ].
      inversion H; subst. cbn. apply IH. reflexivity.
Qed.


Lemma write_row_other (rows : list Stock.t) (i j : nat) (s : Stock.t) :
  i <> j -> nth_error (write_row i s rows) j = nth_error rows j.
Proof.
  revert i j. induction rows as [ | r0 rows IH ]; intros [ | i ] [ | j ] H;
    cbn; try reflexivity; try congruence.
  apply IH. congruence.
Qed.

Lemma write_row_length (rows : list Stock.t) (i : nat) (s : Stock.t) :
  List.length (write_row i s rows) = List.length rows.
Proof.
  revert i. induction rows as [ | r0 rows IH ]; intros [ | i ]; cbn; auto.
Qed.

Lemma owned_by_named_iff (user : Z) (name : string) (s : Stock.t) :
  owned_by_named user name s = true
  <-> Stock.user_id s = user /\ Stock.stock_name s = name.
Proof.
  unfold owned_by_named.
  rewrite andb_true_iff, Z.eqb_eq, String.eqb_eq. reflexivity.
Qed.

Lemma query_first_none (user : Z) (name : string) (rows : list Stock.t) :
  query_first user name rows = None ->
  forall s, In s rows -> owned_by_named user name s = false.
Proof.
  induction rows as [ | r rows IH ]; intros H s Hin; cbn in *.
  - contradiction.
  - destruct (owned_by_named user name r) eqn:E; [ discriminate H | ].
    destruct (query_first user name rows) as [ [j r'] | ];
      [ discriminate H | ].
    destruct Hin as [ <- | Hin ]; [ exact E | apply IH; auto ].
Qed.



Lemma write_row_map {B : Type} (f : Stock.t -> B) (rows : list Stock.t)
      (i : nat) (r s : Stock.t) :
  nth_error rows i = Some r -> f s = f r ->
  map f (write_row i s rows) = map f rows.
Proof.
  revert i. induction rows as [ | r0 rows IH ]; intros [ | i ] H Hf;
    cbn in *; try discriminate H.
  - inversion H; subst. rewrite Hf. reflexivity.
  - rewrite (IH i H Hf). reflexivity.
Qed.

Lemma write_row_filter (P : Stock.t -> bool) (rows : list Stock.t)
      (i : nat) (r s : Stock.t) :
  nth_error rows i = Some r -> P r = false -> P s = false ->
  filter P (write_row i s rows) = filter P rows.
Proof.
  revert i. induction rows as [ | r0 rows IH ]; intros [ | i ] H Hr Hs;
    cbn in *; try discriminate H.
  - inversion H; subst. rewrite Hr, Hs. reflexivity.
  - rewrite (IH i H Hr Hs). reflexivity.
Qed.

Lemma next_id_above (rows : list Stock.t) (s : Stock.t) :
  In s rows -> (Stock.id s < next_id rows)%Z.
Proof.
  unfold next_id. induction rows as [ | r rows IH ]; intros Hin; cbn in *.
  - contradiction.
  - destruct Hin as [ <- | Hin ]; [ lia | ].
    specialize (IH Hin). lia.
Qed.

Lemma next_id_fresh (rows : list Stock.t) :
  ~ In (next_id rows) (map Stock.id rows).
Proof.
  intros Hin. apply in_map_iff in Hin. destruct Hin as (s & Hid & Hin).
  pose proof (next_id_above rows s Hin). lia.
Qed.

(** The commit writes the pending row when the table can hold it, and
    fails otherwise. *)
Lemma commit_storable (p : pending) (rows : list Stock.t) :
  storable (pending_row p) = true ->
  db_session_commit p rows
  = Py.Ok match p with
          | Modified i s => write_row i s rows
          | Added s => rows ++ [s]
          end.
Proof.
  unfold storable, db_session_commit. intros H.
  apply andb_true_iff in H. destruct H as [H Hc].
  apply andb_true_iff in H. destruct H as [Hq Hb].
  rewrite Hq. apply negb_true_iff in Hb, Hc. rewrite Hb, Hc. cbn.
  destruct p; reflexivity.
Qed.

Lemma commit_not_storable (p : pending) (rows : list Stock.t) :
  storable (pending_row p) = false ->
  exists x, db_session_commit p rows = Py.Raise x.
Proof.
  unfold storable, db_session_commit. intros H.
  destruct (int64 (Stock.quantity (pending_row p))); cbn in *;
    [ | eexists; reflexivity ].
  destruct (Py.is_nan (Stock.buy_price (pending_row p))); cbn in *;
    [ eexists; reflexivity | ].
  destruct (Py.is_nan (Stock.current_price (pending_row p))); cbn in *;
    [ eexists; reflexivity | discriminate H ].
Qed.

(** The ways a POST can end: a recorded update, a recorded addition, or a
    table left as it was with the error message among the flashes. *)
Lemma portfolio_post_cases (current_user : Z)
      (request_form : Py.result add_stock_form) (rows : list Stock.t) :
  (exists form i existing_stock updated,
      request_form = Py.Ok form
      /\ query_first current_user (form_stock_name form) rows
         = Some (i, existing_stock)
      /\ portfolio_post current_user request_form rows
         = (write_row i updated rows,
            [Updated_with_new_shares (form_stock_name form)
                                     (form_quantity form)])
      /\ Stock.id updated = Stock.id existing_stock
      /\ Stock.stock_name updated = Stock.stock_name existing_stock
      /\ Stock.user_id updated = Stock.user_id existing_stock
      /\ Stock.quantity updated
         = (Stock.quantity existing_stock + form_quantity form)%Z
      /\ Stock.buy_price updated
         = Py.fdiv
             (Py.fadd (Py.fmul (Py.of_int (Stock.quantity existing_stock))
                               (Stock.buy_price existing_stock))
                      (Py.fmul (Py.of_int (form_quantity form))
                               (form_buy_price form)))
             (Py.of_int (Stock.quantity existing_stock + form_quantity form))
      /\ Stock.current_price updated = form_current_price form
      /\ storable updated = true
      /\ (Stock.quantity existing_stock + form_quantity form <> 0)%Z)
  \/ (exists form,
        request_form = Py.Ok form
        /\ query_first current_user (form_stock_name form) rows = None
        /\ portfolio_post current_user request_form rows
           = (rows ++ [ {| Stock.id := next_id rows;
                           Stock.stock_name := form_stock_name form;
                           Stock.quantity := form_quantity form;
                           Stock.buy_price := form_buy_price form;
                           Stock.current_price := form_current_price form;
                           Stock.user_id := current_user |} ],
              [Added_to_portfolio (form_stock_name form)])
        /\ int64 (form_quantity form) = true
        /\ Py.is_nan (form_buy_price form) = false
        /\ Py.is_nan (form_current_price form) = false)
  \/ (fst (portfolio_post current_user request_form rows) = rows
      /\ In Error_processing_request
            (snd (portfolio_post current_user request_form rows))).
Proof.
  unfold portfolio_post, portfolio_post_body.
  destruct request_form as [form | x]; cbn [Py.bind];
    [ | right; right; split; [ reflexivity | left; reflexivity ] ].
  destruct (query_first current_user (form_stock_name form) rows)
    as [ [i existing_stock] | ] eqn:Hq.
  - unfold Py.int_mul_float, Py.float_div_int, Py.truediv.
    destruct (Py.float_of_int (Stock.quantity existing_stock))
      as [oq | x] eqn:Eoq; cbn [Py.bind];
      [ | right; right; split; [ reflexivity | left; reflexivity ] ].
    destruct (Py.float_of_int (form_quantity form))
      as [fq | x] eqn:Efq; cbn [Py.bind];
      [ | right; right; split; [ reflexivity | left; reflexivity ] ].
    destruct (Py.float_of_int
                (Stock.quantity existing_stock + form_quantity form))
      as [tq | x] eqn:Etq; cbn [Py.bind];
      [ | right; right; split; [ reflexivity | left; reflexivity ] ].
    destruct (Py.is_zero tq) eqn:Ez; cbn [Py.bind];
      [ right; right; split; [ reflexivity | left; reflexivity ] | ].
    match goal with
    | |- context [ db_session_commit ?p rows ] =>
        destruct (storable (pending_row p)) eqn:Hs;
        [ rewrite (commit_storable p rows Hs)
        | destruct (commit_not_storable p rows Hs) as [x Hx]; rewrite Hx ]
    end.
    + left. eexists form, i, existing_stock, _.
      split; [ reflexivity | ]. split; [ exact Hq | ].
      split; [ reflexivity | ]. cbn [Stock.id Stock.stock_name Stock.user_id
                                     Stock.quantity Stock.buy_price
                                     Stock.current_price].
      rewrite <- (float_of_int_of_int _ _ Eoq),
        <- (float_of_int_of_int _ _ Efq), <- (float_of_int_of_int _ _ Etq).
      repeat split; try reflexivity.
      * exact Hs.
      * intros Hz. rewrite Hz in Etq. inversion Etq; subst tq.
        discriminate Ez.
    + right; right. split; [ reflexivity | right; left; reflexivity ].
  - match goal with
    | |- context [ db_session_commit ?p rows ] =>
        destruct (storable (pending_row p)) eqn:Hs;
        [ rewrite (commit_storable p rows Hs)
        | destruct (commit_not_storable p rows Hs) as [x Hx]; rewrite Hx ]
    end.
    + right; left. exists form.
      split; [ reflexivity | ]. split; [ exact Hq | ].
      split; [ reflexivity | ].
      unfold storable in Hs. cbn in Hs.
      apply andb_true_iff in Hs. destruct Hs as [Hs Hc].
      apply andb_true_iff in Hs. destruct Hs as [Hq' Hb].
      apply negb_true_iff in Hb, Hc. repeat split; assumption.
    + right; right. split; [ reflexivity | right; left; reflexivity ].
Qed.

End Purchase.




(** Distinctness of the entries of an explicit list. *)
Ltac nodup_closed :=
  repeat (constructor;
          [ cbn; let Hin := fresh "Hin" in
                 intros Hin;
                 repeat (destruct Hin as [Hin | Hin]; [ inversion Hin | ]);
                 exact Hin
          | ]);
  constructor.

Lemma NoDup_snoc {A : Type} (l : list A) (x : A) :
  ~ In x l -> NoDup l -> NoDup (l ++ [x]).
Proof.
  intros Hx Hl. apply Permutation_NoDup with (l := x :: l).
  - apply Permutation_cons_append.
  - constructor; assumption.
Qed.



(** X12.  A POST keeps the primary keys of the table distinct. *)
Theorem post_keeps_ids_distinct (current_user : Z)
        (request_form : Py.result app.add_stock_form) (rows : list Stock.t) :
  NoDup (map Stock.id rows) ->
  NoDup (map Stock.id
             (fst (app.portfolio_post current_user request_form rows))).
Proof.
  intros Hnd.
  destruct (portfolio_post_cases current_user request_form rows)
    as [ (form & i & r & u & _ & Hq & Hpost & Hid & _)
       | [ (form & _ & _ & Hpost & _) | (Hfst & _) ] ].
  - rewrite Hpost; cbn [fst].
    rewrite (write_row_map Stock.id rows i r u); [ exact Hnd | | exact Hid ].
    apply (query_first_found _ _ _ _ _ Hq).
  - rewrite Hpost; cbn [fst]. rewrite map_app. cbn [map].
    apply NoDup_snoc; [ apply next_id_fresh | exact Hnd ].
  - rewrite Hfst. exact Hnd.
Qed.

Lemma post_keeps_ids_distinct_witness :
  NoDup (map Stock.id
           (fst (app.portfolio_post 7
                   (Py.Ok (app.mk_form "ACME" 10 (Py.nearest 80 1)
                                       (Py.nearest 85 1)))
                   [Stock.mk 1 "INIT" 4 (Py.nearest 20 1) (Py.nearest 21 1) 7;
                    Stock.mk 2 "ACME" 5 (Py.nearest 9 1) (Py.nearest 9 1) 8]))).
Proof.
  apply (post_keeps_ids_distinct 7
           (Py.Ok (app.mk_form "ACME" 10 (Py.nearest 80 1) (Py.nearest 85 1)))
           [Stock.mk 1 "INIT" 4 (Py.nearest 20 1) (Py.nearest 21 1) 7;
            Stock.mk 2 "ACME" 5 (Py.nearest 9 1) (Py.nearest 9 1) 8]).
  cbn. nodup_closed.
Defined.

(** X13.  A POST keeps at most one row per holding: if no two rows have
    the same owner and stock name before, none have after. *)
Theorem post_keeps_one_row_per_holding (current_user : Z)
        (request_form : Py.result app.add_stock_form) (rows : list Stock.t) :
  NoDup (map holding_key rows) ->
  NoDup (map holding_key
             (fst (app.portfolio_post current_user request_form rows))).
Proof.
  intros Hnd.
  destruct (portfolio_post_cases current_user request_form rows)
    as [ (form & i & r & u & _ & Hq & Hpost & _ & Hname & Huser & _)
       | [ (form & _ & Hq & Hpost & _) | (Hfst & _) ] ].
  - rewrite Hpost; cbn [fst].
    rewrite (write_row_map holding_key rows i r u); [ exact Hnd | | ].
    + apply (query_first_found _ _ _ _ _ Hq).
    + unfold holding_key. rewrite Hname, Huser. reflexivity.
  - rewrite Hpost; cbn [fst].
    rewrite map_app. cbn [map]. apply NoDup_snoc; [ | exact Hnd ].
    intros Hin. apply in_map_iff in Hin. destruct Hin as (s & Hkey & Hin).
    pose proof (query_first_none _ _ _ Hq s Hin) as Hno.
    unfold holding_key in Hkey; cbn in Hkey. inversion Hkey as [ [Hu Hn] ].
    assert (Hyes : app.owned_by_named current_user (app.form_stock_name form) s
                   = true)
      by (apply owned_by_named_iff; split; assumption).
    rewrite Hyes in Hno. discriminate Hno.
  - rewrite Hfst. exact Hnd.
Qed.

Lemma post_keeps_one_row_per_holding_witness :
  NoDup (map holding_key
           (fst (app.portfolio_post 7
                   (Py.Ok (app.mk_form "ACME" 10 (Py.nearest 80 1)
                                       (Py.nearest 85 1)))
                   [Stock.mk 1 "ACME" 4 (Py.nearest 20 1) (Py.nearest 21 1) 7;
                    Stock.mk 2 "ACME" 5 (Py.nearest 9 1) (Py.nearest 9 1) 8]))).
Proof.
  apply (post_keeps_one_row_per_holding 7
           (Py.Ok (app.mk_form "ACME" 10 (Py.nearest 80 1) (Py.nearest 85 1)))
           [Stock.mk 1 "ACME" 4 (Py.nearest 20 1) (Py.nearest 21 1) 7;
            Stock.mk 2 "ACME" 5 (Py.nearest 9 1) (Py.nearest 9 1) 8]).
  cbn. nodup_closed.
Defined.

(** A POST leaves the rows of the other users as they are. *)
Lemma post_other_users_rows (current_user other : Z)
      (request_form : Py.result app.add_stock_form) (rows : list Stock.t) :
  other <> current_user ->
  filter (app.owned_by other)
         (fst (app.portfolio_post current_user request_form rows))
  = filter (app.owned_by other) rows.
Proof.
  intros Hother.
  assert (Hnot : forall s, Stock.user_id s = current_user ->
                           app.owned_by other s = false).
  { intros s Hs. unfold app.owned_by. rewrite Hs. apply Z.eqb_neq.
    intros E. apply Hother. symmetry. exact E. }
  destruct (portfolio_post_cases current_user request_form rows)
    as [ (form & i & r & u & _ & Hq & Hpost & _ & _ & Huser & _)
       | [ (form & _ & _ & Hpost & _) | (Hfst & _) ] ].
  - rewrite Hpost; cbn [fst].
    destruct (query_first_found _ _ _ _ _ Hq) as [Hnth Hown].
    apply owned_by_named_iff in Hown. destruct Hown as [Hru _].
    apply (write_row_filter _ rows i r u Hnth).
    + apply Hnot. exact Hru.
    + apply Hnot. rewrite Huser. exact Hru.
  - rewrite Hpost; cbn [fst]. rewrite filter_app. cbn [filter].
    rewrite Hnot by reflexivity. apply app_nil_r.
  - rewrite Hfst. reflexivity.
Qed.



(** X15.  A purchase that would bring the held quantity to zero is not
    recorded: the division raises, the table is returned unchanged and
    the error message is flashed. *)
Theorem zero_total_quantity_rejected (current_user : Z)
        (form : app.add_stock_form) (rows : list Stock.t) (i : nat)
        (existing_stock : Stock.t) :
  app.query_first current_user (app.form_stock_name form) rows
  = Some (i, existing_stock) ->
  app.form_quantity form = (- Stock.quantity existing_stock)%Z ->
  app.portfolio_post current_user (Py.Ok form) rows
  = (rows, [app.Error_processing_request]).
Proof.
  intros Hq Hform.
  unfold app.portfolio_post, app.portfolio_post_body. cbn [Py.bind].
  rewrite Hq.
  unfold Py.int_mul_float, Py.float_div_int.
  destruct (Py.float_of_int (Stock.quantity existing_stock)); cbn [Py.bind];
    [ | reflexivity ].
  destruct (Py.float_of_int (app.form_quantity form)); cbn [Py.bind];
    [ | reflexivity ].
  replace (Stock.quantity existing_stock + app.form_quantity form)%Z
    with 0%Z by lia.
  reflexivity.
Qed.

Lemma zero_total_quantity_rejected_witness :
  app.portfolio_post 7
    (Py.Ok (app.mk_form "ACME" (-10) (Py.nearest 80 1) (Py.nearest 85 1)))
    [Stock.mk 2 "ACME" 10 (Py.nearest 100 1) (Py.nearest 95 1) 7]
  = ([Stock.mk 2 "ACME" 10 (Py.nearest 100 1) (Py.nearest 95 1) 7],
     [app.Error_processing_request]).
Proof.
  apply (zero_total_quantity_rejected 7
           (app.mk_form "ACME" (-10) (Py.nearest 80 1) (Py.nearest 85 1))
           [Stock.mk 2 "ACME" 10 (Py.nearest 100 1) (Py.nearest 95 1) 7] 0
           (Stock.mk 2 "ACME" 10 (Py.nearest 100 1) (Py.nearest 95 1) 7));
    reflexivity.
Defined.

(** X17.  A repeat purchase touches one row only: the table keeps its
    length and every row other than the holding's stays as it was. *)
Theorem repeat_purchase_touches_one_row (current_user : Z)
        (form : app.add_stock_form) (rows : list Stock.t) (i : nat)
        (existing_stock : Stock.t) :
  app.query_first current_user (app.form_stock_name form) rows
  = Some (i, existing_stock) ->
  List.length (fst (app.portfolio_post current_user (Py.Ok form) rows))
  = List.length rows
  /\ forall j : nat,
      j <> i ->
      nth_error (fst (app.portfolio_post current_user (Py.Ok form) rows)) j
      = nth_error rows j.
Proof.
  intros Hq.
  destruct (portfolio_post_cases current_user (Py.Ok form) rows)
    as [ (form' & i' & r & u & Hform & Hq' & Hpost & _)
       | [ (form' & Hform & Hq' & _) | (Hfst & _) ] ];
    try (inversion Hform; subst form'; rewrite Hq in Hq').
  - inversion Hq'; subst i' r. rewrite Hpost; cbn [fst].
    split; [ apply write_row_length | ].
    intros j Hj. apply write_row_other. congruence.
  - discriminate Hq'.
  - rewrite Hfst. split; reflexivity.
Qed.

Lemma repeat_purchase_touches_one_row_witness :
  List.length
    (fst (app.portfolio_post 7
            (Py.Ok (app.mk_form "ACME" 5 (Py.nearest 70 1) (Py.nearest 85 1)))
            [Stock.mk 1 "INIT" 4 (Py.nearest 20 1) (Py.nearest 21 1) 7;
             Stock.mk 2 "ACME" 10 (Py.nearest 100 1) (Py.nearest 95 1) 7]))
  = 2%nat.
Proof.
  apply (repeat_purchase_touches_one_row 7
           (app.mk_form "ACME" 5 (Py.nearest 70 1) (Py.nearest 85 1))
           [Stock.mk 1 "INIT" 4 (Py.nearest 20 1) (Py.nearest 21 1) 7;
            Stock.mk 2 "ACME" 10 (Py.nearest 100 1) (Py.nearest 95 1) 7]
           1 (Stock.mk 2 "ACME" 10 (Py.nearest 100 1) (Py.nearest 95 1) 7)).
  reflexivity.
Defined.

(** ** Viewing the portfolio *)

Section View.

Import app.

Lemma insert_by_name_permutation (s : Stock.t) (l : list Stock.t) :
  Permutation (s :: l) (insert_by_name s l).
Proof.
  induction l as [ | r l IH ]; cbn.
  - apply Permutation_refl.
  - destruct (String.leb _ _); [ apply Permutation_refl | ].
    apply perm_trans with (l' := r :: s :: l); [ apply perm_swap | ].
    apply perm_skip. exact IH.
Qed.

Lemma order_by_permutation (l : list Stock.t) :
  Permutation l (order_by_stock_name l).
Proof.
  induction l as [ | s l IH ]; cbn.
  - apply perm_nil.
  - apply perm_trans with (l' := s :: order_by_stock_name l).
    + apply perm_skip. exact IH.
    + apply insert_by_name_permutation.
Qed.

Lemma insert_by_name_head (s a : Stock.t) (l : list Stock.t) :
  name_le a s -> HdRel name_le a l -> HdRel name_le a (insert_by_name s l).
Proof.
  intros Has Hl. destruct l as [ | r l ]; cbn.
  - constructor. exact Has.
  - destruct (String.leb _ _); constructor.
    + exact Has.
    + inversion Hl; assumption.
Qed.

Lemma insert_by_name_sorted (s : Stock.t) (l : list Stock.t) :
  Sorted name_le l -> Sorted name_le (insert_by_name s l).
Proof.
  induction 1 as [ | r l Hl IH Hr ]; cbn.
  - repeat constructor.
  - destruct (String.leb (Stock.stock_name s) (Stock.stock_name r)) eqn:E.
    + constructor; [ constructor; assumption | constructor; exact E ].
    + constructor; [ exact IH | ].
      apply insert_by_name_head; [ | exact Hr ].
      unfold name_le.
      destruct (String.leb_total (Stock.stock_name s) (Stock.stock_name r))
        as [H | H]; [ congruence | exact H ].
Qed.

Lemma order_by_sorted (l : list Stock.t) :
  Sorted name_le (order_by_stock_name l).
Proof.
  induction l as [ | s l IH ]; cbn.
  - constructor.
  - apply insert_by_name_sorted. exact IH.
Qed.

Lemma sorted_names (l : list Stock.t) :
  Sorted name_le l ->
  Sorted (fun a b => String.leb a b = true)
         (map StockData.stock_name (map stock_data l)).
Proof.
  induction 1 as [ | r l Hl IH Hr ]; cbn [map].
  - constructor.
  - constructor; [ exact IH | ].
    destruct Hr as [ | b l Hb ]; cbn [map]; constructor. exact Hb.
Qed.

Lemma all_convert_permutation (l l' : list Stock.t) :
  Permutation l l' -> all_convert l -> all_convert l'.
Proof.
  unfold all_convert. intros Hp H. rewrite Forall_forall in *.
  intros s Hs. apply H. apply Permutation_in with (l := l').
  - apply Permutation_sym. exact Hp.
  - exact Hs.
Qed.

(** The page is produced exactly when every quantity of the user
    converts to a float. *)
Lemma portfolio_get_converts (current_user : Z) (rows : list Stock.t) :
  all_convert (filter (owned_by current_user) rows) ->
  exists summary,
    portfolio_get current_user rows
    = Py.Ok (map stock_data
                 (order_by_stock_name (filter (owned_by current_user) rows)),
             summary).
Proof.
  intros H. unfold portfolio_get. rewrite process_converts.
  - eexists. reflexivity.
  - apply (all_convert_permutation _ _ (order_by_permutation _) H).
Qed.

Lemma stock_data_of_map (l : list Stock.t) :
  all_convert l ->
  map utils.stock_data_of l = map Py.Ok (map stock_data l).
Proof.
  induction 1 as [ | s l Hs Hl IH ]; cbn [map]; [ reflexivity | ].
  rewrite (stock_data_of_converts _ Hs), IH. reflexivity.
Qed.

End View.

(** X18.  The portfolio page, produced when every quantity of the user
    converts to a float, lists the stocks in non-decreasing order of
    name. *)
Theorem view_sorted_by_name (current_user : Z) (rows : list Stock.t) :
  all_convert (filter (app.owned_by current_user) rows) ->
  exists (portfolio : list StockData.t) (summary : Summary.t),
    app.portfolio_get current_user rows = Py.Ok (portfolio, summary)
    /\ Sorted (fun a b => String.leb a b = true)
              (map StockData.stock_name portfolio).
Proof.
  intros H. destruct (portfolio_get_converts current_user rows H) as [s Hs].
  eexists _, s. split; [ exact Hs | ].
  apply sorted_names. apply order_by_sorted.
Qed.

Lemma view_sorted_by_name_witness :
  exists (portfolio : list StockData.t) (summary : Summary.t),
    app.portfolio_get 7
      [Stock.mk 1 "INIT" 4 (Py.nearest 20 1) (Py.nearest 21 1) 7;
       Stock.mk 2 "ACME" 5 (Py.nearest 9 1) (Py.nearest 9 1) 8;
       Stock.mk 3 "ACME" 10 (Py.nearest 100 1) (Py.nearest 95 1) 7]
    = Py.Ok (portfolio, summary)
    /\ Sorted (fun a b => String.leb a b = true)
              (map StockData.stock_name portfolio).
Proof.
  apply (view_sorted_by_name 7
           [Stock.mk 1 "INIT" 4 (Py.nearest 20 1) (Py.nearest 21 1) 7;
            Stock.mk 2 "ACME" 5 (Py.nearest 9 1) (Py.nearest 9 1) 8;
            Stock.mk 3 "ACME" 10 (Py.nearest 100 1) (Py.nearest 95 1) 7]).
  cbn. repeat constructor; eexists; reflexivity.
Defined.

(** X19.  The portfolio page shows the current user's stocks and no
    others: its entries are, up to order, the dictionaries of the rows
    the user owns. *)
Theorem view_shows_own_stocks (current_user : Z) (rows : list Stock.t) :
  all_convert (filter (app.owned_by current_user) rows) ->
  exists (portfolio : list StockData.t) (summary : Summary.t),
    app.portfolio_get current_user rows = Py.Ok (portfolio, summary)
    /\ Permutation
         (map Py.Ok portfolio)
         (map utils.stock_data_of (filter (app.owned_by current_user) rows)).
Proof.
  intros H. destruct (portfolio_get_converts current_user rows H) as [s Hs].
  eexists _, s. split; [ exact Hs | ].
  rewrite (stock_data_of_map _ H).
  apply Permutation_map, Permutation_map, Permutation_sym.
  apply order_by_permutation.
Qed.

Lemma view_shows_own_stocks_witness :
  exists (portfolio : list StockData.t) (summary : Summary.t),
    app.portfolio_get 7
      [Stock.mk 1 "INIT" 4 (Py.nearest 20 1) (Py.nearest 21 1) 7;
       Stock.mk 2 "ACME" 5 (Py.nearest 9 1) (Py.nearest 9 1) 8;
       Stock.mk 3 "ACME" 10 (Py.nearest 100 1) (Py.nearest 95 1) 7]
    = Py.Ok (portfolio, summary)
    /\ List.length portfolio = 2%nat.
Proof.
  destruct (view_shows_own_stocks 7
              [Stock.mk 1 "INIT" 4 (Py.nearest 20 1) (Py.nearest 21 1) 7;
               Stock.mk 2 "ACME" 5 (Py.nearest 9 1) (Py.nearest 9 1) 8;
               Stock.mk 3 "ACME" 10 (Py.nearest 100 1) (Py.nearest 95 1) 7])
    as (portfolio & summary & Hget & Hperm).
  - cbn. repeat constructor; eexists; reflexivity.
  - exists portfolio, summary. split; [ exact Hget | ].
    apply Permutation_length in Hperm.
    rewrite !length_map in Hperm. exact Hperm.
Defined.

(** X20.  For a user with at least one row, all with quantities that
    convert, the totals on the portfolio page come from the rows the user
    owns alone: they are the float sums of quantity * buy_price and of
    quantity * current_price over these rows in name order, passed
    through [round(x, 2)]. *)
Theorem view_totals_are_own_sums (current_user : Z) (rows : list Stock.t) :
  let own :=
    app.order_by_stock_name (filter (app.owned_by current_user) rows) in
  all_convert (filter (app.owned_by current_user) rows) ->
  filter (app.owned_by current_user) rows <> [] ->
  exists (portfolio : list StockData.t) (summary : Summary.t),
    app.portfolio_get current_user rows = Py.Ok (portfolio, summary)
    /\ Summary.total_investment summary
       = Py.Float
           (Py.round
              (float_sum
                 (map (fun s => Py.fmul (Py.of_int (Stock.quantity s))
                                        (Stock.buy_price s)) own)) 2)
    /\ Summary.total_current_value summary
       = Py.Float
           (Py.round
              (float_sum
                 (map (fun s => Py.fmul (Py.of_int (Stock.quantity s))
                                        (Stock.current_price s)) own)) 2).
Proof.
  cbv zeta. intros Hall Hne. unfold app.portfolio_get.
  pose proof (order_by_permutation (filter (app.owned_by current_user) rows))
    as Hp.
  rewrite process_converts
    by (apply (all_convert_permutation _ _ Hp Hall)).
  destruct (app.order_by_stock_name (filter (app.owned_by current_user) rows))
    as [ | s l ] eqn:E.
  - exfalso. apply Hne. apply Permutation_sym, Permutation_nil in Hp.
    exact Hp.
  - eexists _, _. split; [ reflexivity | ]. split; reflexivity.
Qed.

Lemma view_totals_are_own_sums_witness :
  exists (portfolio : list StockData.t) (summary : Summary.t),
    app.portfolio_get 7
      [Stock.mk 1 "INIT" 4 (Py.nearest 20 1) (Py.nearest 21 1) 7;
       Stock.mk 2 "ACME" 5 (Py.nearest 9 1) (Py.nearest 9 1) 8;
       Stock.mk 3 "ACME" 10 (Py.nearest 100 1) (Py.nearest 95 1) 7]
    = Py.Ok (portfolio, summary)
    /\ Summary.total_investment summary = Py.Float (Py.nearest 1080 1)
    /\ Summary.total_current_value summary = Py.Float (Py.nearest 1034 1).
Proof.
  destruct (view_totals_are_own_sums 7
              [Stock.mk 1 "INIT" 4 (Py.nearest 20 1) (Py.nearest 21 1) 7;
               Stock.mk 2 "ACME" 5 (Py.nearest 9 1) (Py.nearest 9 1) 8;
               Stock.mk 3 "ACME" 10 (Py.nearest 100 1) (Py.nearest 95 1) 7])
    as (portfolio & summary & Hget & Hi & Hv).
  - cbn. repeat constructor; eexists; reflexivity.
  - cbn. discriminate.
  - exists portfolio, summary. split; [ exact Hget | ].
    rewrite Hi, Hv. split; reflexivity.
Defined.

(** X21.  A POST by one user does not change what any other user sees on
    the portfolio page. *)
Theorem post_keeps_other_users_view (current_user other : Z)
        (request_form : Py.result app.add_stock_form) (rows : list Stock.t) :
  other <> current_user ->
  app.portfolio_get other
    (fst (app.portfolio_post current_user request_form rows))
  = app.portfolio_get other rows.
Proof.
  intros Hother. unfold app.portfolio_get.
  rewrite (post_other_users_rows current_user other request_form rows Hother).
  reflexivity.
Qed.

Lemma post_keeps_other_users_view_witness :
  app.portfolio_get 8
    (fst (app.portfolio_post 7
            (Py.Ok (app.mk_form "ACME" 10 (Py.nearest 80 1) (Py.nearest 85 1)))
            [Stock.mk 1 "ACME" 4 (Py.nearest 20 1) (Py.nearest 21 1) 7;
             Stock.mk 2 "ACME" 5 (Py.nearest 9 1) (Py.nearest 9 1) 8]))
  = app.portfolio_get 8
      [Stock.mk 1 "ACME" 4 (Py.nearest 20 1) (Py.nearest 21 1) 7;
       Stock.mk 2 "ACME" 5 (Py.nearest 9 1) (Py.nearest 9 1) 8].
Proof.
  apply (post_keeps_other_users_view 7 8
           (Py.Ok (app.mk_form "ACME" 10 (Py.nearest 80 1) (Py.nearest 85 1)))
           [Stock.mk 1 "ACME" 4 (Py.nearest 20 1) (Py.nearest 21 1) 7;
            Stock.mk 2 "ACME" 5 (Py.nearest 9 1) (Py.nearest 9 1) 8]).
  lia.
Defined.

(** ** Managing losses and the break-even page *)

Section Routes.

Import app.

Lemma owned_by_iff (user : Z) (s : Stock.t) :
  owned_by user s = true <-> Stock.user_id s = user.
Proof. unfold owned_by. apply Z.eqb_eq. Qed.

Lemma first_by_id_some (stock_id user : Z) (rows : list Stock.t)
      (s : Stock.t) :
  first_by_id stock_id user rows = Some s ->
  In s rows /\ Stock.id s = stock_id /\ Stock.user_id s = user.
Proof.
  intros H. apply find_some in H. destruct H as [Hin Hb].
  apply andb_true_iff in Hb. destruct Hb as [Hid Hown].
  split; [ exact Hin | ].
  split; [ apply Z.eqb_eq; exact Hid | apply owned_by_iff; exact Hown ].
Qed.

Lemma first_by_id_none (stock_id user : Z) (rows : list Stock.t) :
  first_by_id stock_id user rows = None ->
  forall s, In s rows -> Stock.id s = stock_id -> Stock.user_id s <> user.
Proof.
  intros H s Hin Hid Hu.
  pose proof (find_none _ _ H s Hin) as Hb. cbn in Hb.
  apply andb_false_iff in Hb. destruct Hb as [Hb | Hb].
  - apply Z.eqb_neq in Hb. contradiction.
  - apply owned_by_iff in Hu. rewrite Hu in Hb. discriminate Hb.
Qed.

Lemma first_by_id_found (user : Z) (rows : list Stock.t) (s : Stock.t) :
  NoDup (map Stock.id rows) -> In s rows -> Stock.user_id s = user ->
  first_by_id (Stock.id s) user rows = Some s.
Proof.
  intros Hnd Hin Hu. unfold first_by_id.
  induction rows as [ | r rows IH ]; cbn in *; [ contradiction | ].
  inversion Hnd as [ | x l Hx Hnd' ]; subst.
  destruct Hin as [ -> | Hin ].
  - rewrite Z.eqb_refl. rewrite (proj2 (owned_by_iff _ _) eq_refl).
    reflexivity.
  - destruct (Z.eqb_spec (Stock.id r) (Stock.id s)) as [E | E].
    + exfalso. apply Hx. rewrite E. apply in_map. exact Hin.
    + cbn. apply IH; assumption.
Qed.

Lemma first_by_id_foreign (user : Z) (rows : list Stock.t) (s : Stock.t) :
  NoDup (map Stock.id rows) -> In s rows -> Stock.user_id s <> user ->
  first_by_id (Stock.id s) user rows = None.
Proof.
  intros Hnd Hin Hu.
  destruct (first_by_id (Stock.id s) user rows) as [ r | ] eqn:E;
    [ | reflexivity ].
  exfalso. apply first_by_id_some in E. destruct E as (Hrin & Hrid & Hru).
  assert (r = s); [ | subst; contradiction ].
  clear Hu Hru.
  induction rows as [ | x rows IH ]; cbn in *; [ contradiction | ].
  inversion Hnd as [ | y l Hx Hnd' ]; subst.
  destruct Hrin as [ -> | Hrin ], Hin as [ -> | Hin ].
  - reflexivity.
  - exfalso. apply Hx. rewrite Hrid. apply in_map. exact Hin.
  - exfalso. apply Hx. rewrite <- Hrid. apply in_map. exact Hrin.
  - apply IH; assumption.
Qed.

Lemma manage_loss_in (user : Z) (rows : list Stock.t) (s : Stock.t) :
  In s (manage_loss user rows)
  <-> In s rows /\ Stock.user_id s = user
      /\ Py.lt (Stock.current_price s) (Stock.buy_price s) = true.
Proof.
  unfold manage_loss, at_a_loss. rewrite filter_In, andb_true_iff.
  rewrite owned_by_iff. reflexivity.
Qed.

End Routes.

(** X22.  For every stock the loss page lists, with distinct primary keys
    in the table, a quantity that converts to a float, and every target
    strictly between its current price and its average cost, the
    break-even page is rendered for that stock with the double-precision
    value of the formula. *)
Theorem listed_loss_has_solution (current_user : Z) (rows : list Stock.t)
        (stock : Stock.t) (p_target q1f : Py.float) :
  NoDup (map Stock.id rows) ->
  In stock (app.manage_loss current_user rows) ->
  well_formed stock -> Py.valid p_target ->
  Py.float_of_int (Stock.quantity stock) = Py.Ok q1f ->
  Py.lt (Stock.current_price stock) p_target = true ->
  Py.lt p_target (Stock.buy_price stock) = true ->
  app.calculate_break_even current_user
    (Py.Ok (app.mk_break_even_form (Some (Stock.id stock)) p_target)) rows
  = app.Render_result
      stock
      (Some (Py.fdiv (Py.fmul q1f (Py.fsub (Stock.buy_price stock) p_target))
                     (Py.fsub p_target (Stock.current_price stock))))
      p_target.
Proof.
  intros Hnd Hin [V1 V2] Vt Eq Hlo Hhi.
  apply manage_loss_in in Hin. destruct Hin as (Hin & Hu & _).
  unfold app.calculate_break_even, app.calculate_break_even_body,
    app.first_or_404.
  cbn [Py.bind app.form_stock_id app.form_p_target].
  rewrite (first_by_id_found current_user rows stock Hnd Hin Hu).
  cbn [Py.bind].
  rewrite (solver_in_range _ _ _ _ q1f V2 Vt (lt_not_le _ _ Hlo)
             (lt_not_ge _ _ Hhi) Eq).
  reflexivity.
Qed.

Lemma listed_loss_has_solution_witness :
  app.calculate_break_even 7
    (Py.Ok (app.mk_break_even_form (Some 2%Z) (Py.nearest 80 1)))
    [Stock.mk 1 "INIT" 4 (Py.nearest 20 1) (Py.nearest 21 1) 7;
     Stock.mk 2 "ACME" 10 (Py.nearest 100 1) (Py.nearest 60 1) 7]
  = app.Render_result
      (Stock.mk 2 "ACME" 10 (Py.nearest 100 1) (Py.nearest 60 1) 7)
      (Some (Py.nearest 10 1)) (Py.nearest 80 1).
Proof.
  apply (listed_loss_has_solution 7
           [Stock.mk 1 "INIT" 4 (Py.nearest 20 1) (Py.nearest 21 1) 7;
            Stock.mk 2 "ACME" 10 (Py.nearest 100 1) (Py.nearest 60 1) 7]
           (Stock.mk 2 "ACME" 10 (Py.nearest 100 1) (Py.nearest 60 1) 7)
           (Py.nearest 80 1) (Py.nearest 10 1)).
  - cbn. nodup_closed.
  - vm_compute. left. reflexivity.
  - split; reflexivity.
  - reflexivity.
  - reflexivity.
  - reflexivity.
  - reflexivity.
Defined.

(** X23.  The break-even page is only ever rendered for a stock of the
    table that the current user owns and that has the requested id, with
    the requested target and what [calculate_shares_to_buy] returns; the
    user is redirected to the loss page exactly when reading the form
    raised (a missing field, a target that [float()] cannot parse) or no
    row with the requested id belongs to the user. *)
Theorem break_even_only_own_stock (current_user : Z)
        (request_form : Py.result app.break_even_form)
        (rows : list Stock.t) :
  Forall well_formed rows ->
  (forall form, request_form = Py.Ok form ->
                Py.valid (app.form_p_target form)) ->
  match app.calculate_break_even current_user request_form rows with
  | app.Render_result stock q2 shown_target =>
      exists form,
        request_form = Py.Ok form
        /\ In stock rows
        /\ Stock.user_id stock = current_user
        /\ app.form_stock_id form = Some (Stock.id stock)
        /\ shown_target = app.form_p_target form
        /\ utils.calculate_shares_to_buy
             (Stock.quantity stock) (Stock.buy_price stock)
             (Stock.current_price stock) (app.form_p_target form)
           = Py.Ok q2
  | app.Redirect_manage_loss =>
      (exists x, request_form = Py.Raise x)
      \/ exists form,
           request_form = Py.Ok form
           /\ forall s, In s rows ->
                        app.form_stock_id form = Some (Stock.id s) ->
                        Stock.user_id s <> current_user
  end.
Proof.
  intros Hwf Hvalid.
  unfold app.calculate_break_even, app.calculate_break_even_body,
    app.first_or_404.
  destruct request_form as [form | x]; cbn [Py.bind];
    [ | left; exists x; reflexivity ].
  specialize (Hvalid form eq_refl).
  destruct (app.form_stock_id form) as [stock_id | ] eqn:Eid; cbn [Py.bind].
  - destruct (app.first_by_id stock_id current_user rows) as [ stock | ] eqn:E;
      cbn [Py.bind].
    + pose proof (first_by_id_some _ _ _ _ E) as (Hin & Hid & Hu).
      rewrite Forall_forall in Hwf. destruct (Hwf stock Hin) as [_ V2].
      destruct (solver_returns (Stock.quantity stock) (Stock.buy_price stock)
                  (Stock.current_price stock) (app.form_p_target form)
                  V2 Hvalid) as [q2 Hq2].
      rewrite Hq2. cbn [Py.bind].
      exists form. rewrite Hid. repeat split; assumption.
    + right. exists form. split; [ reflexivity | ].
      intros s Hin Hs. rewrite Eid in Hs. inversion Hs as [Hs'].
      exact (first_by_id_none _ _ _ E s Hin (eq_sym Hs')).
  - right. exists form. split; [ reflexivity | ].
    intros s _ Hs. rewrite Eid in Hs. discriminate Hs.
Qed.

Lemma break_even_only_own_stock_witness :
  app.calculate_break_even 7 (Py.Raise Py.ValueError)
    [Stock.mk 2 "ACME" 10 (Py.nearest 100 1) (Py.nearest 60 1) 7]
  = app.Redirect_manage_loss
  /\ exists form,
       Py.Ok (app.mk_break_even_form (Some 2%Z) (Py.nearest 80 1))
       = Py.Ok form
       /\ In (Stock.mk 2 "ACME" 10 (Py.nearest 100 1) (Py.nearest 60 1) 7)
             [Stock.mk 2 "ACME" 10 (Py.nearest 100 1) (Py.nearest 60 1) 7]
       /\ utils.calculate_shares_to_buy 10 (Py.nearest 100 1)
            (Py.nearest 60 1) (app.form_p_target form)
          = Py.Ok (Some (Py.nearest 10 1)).
Proof.
  split; [ reflexivity | ].
  pose proof (break_even_only_own_stock 7
                (Py.Ok (app.mk_break_even_form (Some 2%Z) (Py.nearest 80 1)))
                [Stock.mk 2 "ACME" 10 (Py.nearest 100 1) (Py.nearest 60 1) 7])
    as H.
  cbn in H.
  destruct H as (form & Hform & Hin & _ & _ & _ & Hq2).
  - repeat constructor.
  - intros form Hform. inversion Hform; subst form. reflexivity.
  - exists form. split; [ exact Hform | ]. split; [ exact Hin | ].
    exact Hq2.
Defined.

(** ** Deleting a stock, deleting the account, registering *)

Section Deleting.

Import app.

Lemma session_delete_no_match (obj : Stock.t) (rows : list Stock.t)
      (user : Z) :
  first_by_id (Stock.id obj) user (session_delete obj rows) = None.
Proof.
  unfold first_by_id, session_delete.
  induction rows as [ | r rows IH ]; cbn; [ reflexivity | ].
  destruct (Z.eqb_spec (Stock.id r) (Stock.id obj)) as [E | E]; cbn.
  - exact IH.
  - destruct (Z.eqb_spec (Stock.id r) (Stock.id obj)); [ contradiction | ].
    cbn. exact IH.
Qed.

Lemma filter_filter_same {A : Type} (P : A -> bool) (l : list A) :
  filter P (filter P l) = filter P l.
Proof.
  induction l as [ | x l IH ]; cbn; [ reflexivity | ].
  destruct (P x) eqn:E; cbn; [ rewrite E | ]; congruence.
Qed.

Lemma filter_commute {A : Type} (P R : A -> bool) (l : list A) :
  filter P (filter R l) = filter R (filter P l).
Proof.
  induction l as [ | x l IH ]; cbn; [ reflexivity | ].
  destruct (P x) eqn:EP, (R x) eqn:ER; cbn; rewrite ?EP, ?ER; congruence.
Qed.

Lemma filter_all {A : Type} (P : A -> bool) (l : list A) :
  (forall x, In x l -> P x = true) -> filter P l = l.
Proof.
  induction l as [ | x l IH ]; intros H; cbn; [ reflexivity | ].
  rewrite (H x (or_introl eq_refl)). f_equal. apply IH.
  intros y Hy. apply H. right. exact Hy.
Qed.

Lemma filter_none {A : Type} (P : A -> bool) (l : list A) :
  (forall x, In x l -> P x = false) -> filter P l = [].
Proof.
  induction l as [ | x l IH ]; intros H; cbn; [ reflexivity | ].
  rewrite (H x (or_introl eq_refl)). apply IH.
  intros y Hy. apply H. right. exact Hy.
Qed.

End Deleting.

(** X25.  After [delete_stock] the user owns no stock with that id,
    whether the call deleted one or answered 404. *)
Theorem delete_stock_removes_it (current_user id : Z) (rows : list Stock.t) :
  app.first_by_id id current_user
                  (fst (app.delete_stock current_user id rows))
  = None.
Proof.
  unfold app.delete_stock.
  destruct (app.first_by_id id current_user rows) as [ s | ] eqn:E;
    cbn [fst].
  - pose proof (first_by_id_some _ _ _ _ E) as (_ & Hid & _).
    rewrite <- Hid. apply session_delete_no_match.
  - exact E.
Qed.

(** X26.  With distinct primary keys, asking to delete a stock that
    belongs to another user answers 404 and changes nothing. *)
Theorem delete_stock_not_owner (current_user : Z) (rows : list Stock.t)
        (stock : Stock.t) :
  NoDup (map Stock.id rows) ->
  In stock rows ->
  Stock.user_id stock <> current_user ->
  app.delete_stock current_user (Stock.id stock) rows
  = (rows, app.Not_found_404).
Proof.
  intros Hnd Hin Hu. unfold app.delete_stock.
  rewrite (first_by_id_foreign current_user rows stock Hnd Hin Hu).
  reflexivity.
Qed.

Lemma delete_stock_not_owner_witness :
  app.delete_stock 7 2
    [Stock.mk 1 "ACME" 4 (Py.nearest 20 1) (Py.nearest 21 1) 7; Stock.mk 2 "ACME" 5 (Py.nearest 9 1) (Py.nearest 9 1) 8]
  = ([Stock.mk 1 "ACME" 4 (Py.nearest 20 1) (Py.nearest 21 1) 7; Stock.mk 2 "ACME" 5 (Py.nearest 9 1) (Py.nearest 9 1) 8],
     app.Not_found_404).
Proof.
  apply (delete_stock_not_owner 7
           [Stock.mk 1 "ACME" 4 (Py.nearest 20 1) (Py.nearest 21 1) 7; Stock.mk 2 "ACME" 5 (Py.nearest 9 1) (Py.nearest 9 1) 8]
           (Stock.mk 2 "ACME" 5 (Py.nearest 9 1) (Py.nearest 9 1) 8)).
  - cbn. nodup_closed.
  - right. left. reflexivity.
  - cbn. lia.
Defined.

(** X27.  With distinct primary keys, deleting a stock one owns removes
    that row and no other: the rest of the table is kept in order, and
    the other users' rows in particular. *)
Theorem delete_stock_removes_one_row (current_user : Z)
        (rows : list Stock.t) (stock : Stock.t) :
  NoDup (map Stock.id rows) ->
  In stock rows ->
  Stock.user_id stock = current_user ->
  snd (app.delete_stock current_user (Stock.id stock) rows)
  = app.Redirect_portfolio
  /\ Permutation rows
                 (stock :: fst (app.delete_stock current_user (Stock.id stock)
                                                 rows))
  /\ forall other : Z,
      other <> current_user ->
      filter (app.owned_by other)
             (fst (app.delete_stock current_user (Stock.id stock) rows))
      = filter (app.owned_by other) rows.
Proof.
  intros Hnd Hin Hu. unfold app.delete_stock.
  rewrite (first_by_id_found current_user rows stock Hnd Hin Hu).
  cbn [fst snd]. split; [ reflexivity | ]. unfold app.session_delete.
  split.
  - clear Hu. induction rows as [ | r rows IH ]; cbn in *; [ contradiction | ].
    inversion Hnd as [ | x l Hx Hnd' ]; subst.
    destruct Hin as [ -> | Hin ].
    + rewrite Z.eqb_refl. cbn. apply perm_skip.
      rewrite filter_all; [ apply Permutation_refl | ].
      intros y Hy. apply negb_true_iff. apply Z.eqb_neq.
      intros E. apply Hx. rewrite <- E. apply in_map. exact Hy.
    + destruct (Z.eqb_spec (Stock.id r) (Stock.id stock)) as [E | E]; cbn.
      * exfalso. apply Hx. rewrite E. apply in_map. exact Hin.
      * apply perm_trans with (l' := r :: stock :: filter
                 (fun s => negb (Stock.id s =? Stock.id stock)%Z) rows).
        -- apply perm_skip. apply IH; assumption.
        -- apply perm_swap.
  - intros other Hother. rewrite filter_commute.
    apply filter_all. intros y Hy.
    apply filter_In in Hy. destruct Hy as [Hy Hown].
    apply negb_true_iff. apply Z.eqb_neq. intros E.
    apply owned_by_iff in Hown.
    assert (y = stock); [ | subst; congruence ].
    clear Hu Hown Hother. induction rows as [ | r rows IH ]; cbn in *;
      [ contradiction | ].
    inversion Hnd as [ | x l Hx Hnd' ]; subst.
    destruct Hy as [ -> | Hy ], Hin as [ -> | Hin ].
    + reflexivity.
    + exfalso. apply Hx. rewrite E. apply in_map. exact Hin.
    + exfalso. apply Hx. rewrite <- E. apply in_map. exact Hy.
    + apply IH; assumption.
Qed.

Lemma delete_stock_removes_one_row_witness :
  snd (app.delete_stock 7 1
         [Stock.mk 1 "ACME" 4 (Py.nearest 20 1) (Py.nearest 21 1) 7; Stock.mk 2 "ACME" 5 (Py.nearest 9 1) (Py.nearest 9 1) 8])
  = app.Redirect_portfolio
  /\ fst (app.delete_stock 7 1
            [Stock.mk 1 "ACME" 4 (Py.nearest 20 1) (Py.nearest 21 1) 7; Stock.mk 2 "ACME" 5 (Py.nearest 9 1) (Py.nearest 9 1) 8])
     = [Stock.mk 2 "ACME" 5 (Py.nearest 9 1) (Py.nearest 9 1) 8].
Proof.
  destruct (delete_stock_removes_one_row 7
              [Stock.mk 1 "ACME" 4 (Py.nearest 20 1) (Py.nearest 21 1) 7; Stock.mk 2 "ACME" 5 (Py.nearest 9 1) (Py.nearest 9 1) 8]
              (Stock.mk 1 "ACME" 4 (Py.nearest 20 1) (Py.nearest 21 1) 7))
    as (Hresp & _ & _).
  - cbn. nodup_closed.
  - left. reflexivity.
  - reflexivity.
  - split; [ exact Hresp | reflexivity ].
Defined.

(** X28.  After [delete_account] the user's portfolio page is empty and no
    account with the user's id is left, while every other user keeps the
    same page and the same account row. *)
Theorem delete_account_effect (current_user : Z) (users : list app.User.t)
        (rows : list Stock.t) :
  let users' := fst (app.delete_account current_user users rows) in
  let rows' := snd (app.delete_account current_user users rows) in
  (exists summary : Summary.t,
     app.portfolio_get current_user rows' = Py.Ok ([], summary))
  /\ (forall u, In u users' -> app.User.id u <> current_user)
  /\ forall other : Z,
      other <> current_user ->
      app.portfolio_get other rows' = app.portfolio_get other rows
      /\ filter (fun u => (app.User.id u =? other)%Z) users'
         = filter (fun u => (app.User.id u =? other)%Z) users.
Proof.
  cbv zeta. unfold app.delete_account; cbn [fst snd].
  split; [ | split ].
  - unfold app.portfolio_get. rewrite filter_none.
    + eexists. reflexivity.
    + intros s Hs. apply filter_In in Hs. destruct Hs as [_ Hs].
      apply negb_true_iff. exact Hs.
  - intros u Hu. apply filter_In in Hu. destruct Hu as [_ Hu].
    apply negb_true_iff in Hu. apply Z.eqb_neq. exact Hu.
  - intros other Hother. split.
    + unfold app.portfolio_get. rewrite filter_commute.
      rewrite (filter_all (fun s => negb (app.owned_by current_user s)));
        [ reflexivity | ].
      intros s Hs. apply filter_In in Hs. destruct Hs as [_ Hs].
      apply owned_by_iff in Hs. apply negb_true_iff.
      unfold app.owned_by. apply Z.eqb_neq. congruence.
    + rewrite filter_commute.
      apply (filter_all (fun u => negb (app.User.id u =? current_user)%Z)).
      intros u Hu. apply filter_In in Hu. destruct Hu as [_ Hu].
      apply Z.eqb_eq in Hu. apply negb_true_iff. apply Z.eqb_neq. congruence.
Qed.

Section Registering.

Import app.

Lemma find_username_none (name : string) (users : list app.User.t) :
  find (fun u => String.eqb (app.User.username u) name) users = None ->
  ~ In name (map app.User.username users).
Proof.
  intros H Hin. apply in_map_iff in Hin. destruct Hin as (u & Hname & Hin).
  pose proof (find_none _ _ H u Hin) as Hb. cbn in Hb.
  rewrite Hname, String.eqb_refl in Hb. discriminate Hb.
Qed.

Lemma find_username_taken (name : string) (users : list app.User.t)
      (u : app.User.t) :
  In u users -> app.User.username u = name ->
  exists existing_user,
    find (fun u => String.eqb (app.User.username u) name) users
    = Some existing_user.
Proof.
  intros Hin Hname.
  destruct (find (fun u => String.eqb (app.User.username u) name) users)
    as [ e | ] eqn:E; [ eauto | ].
  exfalso. apply (find_username_none name users E).
  rewrite <- Hname. apply in_map. exact Hin.
Qed.

End Registering.

(** X29.  Registering keeps usernames unique: if no two accounts share a
    username before, none do after. *)
Theorem register_keeps_usernames_unique (form_username hashed_password : string)
        (users : list app.User.t) :
  NoDup (map app.User.username users) ->
  NoDup (map app.User.username
             (fst (app.register form_username hashed_password users))).
Proof.
  intros Hnd. unfold app.register.
  destruct (find _ users) as [ e | ] eqn:E; cbn [fst]; [ exact Hnd | ].
  rewrite map_app. cbn [map app.User.username].
  apply NoDup_snoc; [ | exact Hnd ].
  apply find_username_none. exact E.
Qed.

Lemma register_keeps_usernames_unique_witness :
  NoDup (map app.User.username
             (fst (app.register "carol" "h3"
                     [app.User.mk 1 "alice" "h1"; app.User.mk 2 "bob" "h2"]))).
Proof.
  apply (register_keeps_usernames_unique "carol" "h3"
           [app.User.mk 1 "alice" "h1"; app.User.mk 2 "bob" "h2"]).
  cbn. nodup_closed.
Defined.

(** X30.  Registering a username that an account already has creates
    nothing and changes nothing: every account, with its password hash,
    stays as it was. *)
Theorem register_taken_changes_nothing (form_username hashed_password : string)
        (users : list app.User.t) (u : app.User.t) :
  In u users ->
  app.User.username u = form_username ->
  app.register form_username hashed_password users
  = (users, app.Username_taken).
Proof.
  intros Hin Hname. unfold app.register.
  destruct (find_username_taken form_username users u Hin Hname) as [e He].
  rewrite He. reflexivity.
Qed.

Lemma register_taken_changes_nothing_witness :
  app.register "bob" "h3" [app.User.mk 1 "alice" "h1"; app.User.mk 2 "bob" "h2"]
  = ([app.User.mk 1 "alice" "h1"; app.User.mk 2 "bob" "h2"],
     app.Username_taken).
Proof.
  apply (register_taken_changes_nothing "bob" "h3"
           [app.User.mk 1 "alice" "h1"; app.User.mk 2 "bob" "h2"]
           (app.User.mk 2 "bob" "h2")).
  - right. left. reflexivity.
  - reflexivity.
Defined.
